(** * Verification of the quiz and word-store logic of the
    English-learning chat bot (learning_test.py, database.py, translator.py).

    Python strings are sequences of Unicode code points; they are modelled
    as [list Z].  Literals of the source are written as UTF-8 [string]
    literals and decoded to code points with [u]. *)

From Stdlib Require Import String Ascii ZArith List Bool.
From stdpp Require Import base gmap list strings.
Import ListNotations.
Open Scope Z_scope.

(* ------------------------------------------------------------------ *)
(** ** Python strings *)

Abbreviation pystr := (list Z).

Definition byte_of (a : ascii) : Z := Z.of_N (N_of_ascii a).

(** UTF-8 decoding, used only to write the literals of the source. *)
Fixpoint u (s : string) : pystr :=
  match s with
  | EmptyString => []
  | String a s1 =>
      let b := byte_of a in
      if b <? 128 then b :: u s1
      else if b <? 224 then
        match s1 with
        | String a2 s2 =>
            Z.lor (Z.shiftl (Z.land b 31) 6) (Z.land (byte_of a2) 63) :: u s2
        | EmptyString => []
        end
      else if b <? 240 then
        match s1 with
        | String a2 (String a3 s3) =>
            Z.lor (Z.shiftl (Z.land b 15) 12)
              (Z.lor (Z.shiftl (Z.land (byte_of a2) 63) 6)
                 (Z.land (byte_of a3) 63)) :: u s3
        | _ => []
        end
      else
        match s1 with
        | String a2 (String a3 (String a4 s4)) =>
            Z.lor (Z.shiftl (Z.land b 7) 18)
              (Z.lor (Z.shiftl (Z.land (byte_of a2) 63) 12)
                 (Z.lor (Z.shiftl (Z.land (byte_of a3) 63) 6)
                    (Z.land (byte_of a4) 63))) :: u s4
        | _ => []
        end
  end.

Definition str_eqb (a b : pystr) : bool := bool_decide (a = b).

(** [str.isspace] for one code point (the Unicode whitespace of CPython). *)
Definition is_space (c : Z) : bool :=
  ((9 <=? c) && (c <=? 13)) || ((28 <=? c) && (c <=? 32)) ||
  (c =? 133) || (c =? 160) || (c =? 5760) ||
  ((8192 <=? c) && (c <=? 8202)) || (c =? 8232) || (c =? 8233) ||
  (c =? 8239) || (c =? 8287) || (c =? 12288).

Fixpoint lstrip (s : pystr) : pystr :=
  match s with
  | [] => []
  | c :: s' => if is_space c then lstrip s' else s
  end.

(** [str.strip()] *)
Definition strip (s : pystr) : pystr := rev (lstrip (rev (lstrip s))).

(** [str.lower()] on one code point.  The model covers the cased letters
    of the scripts the bot handles: ASCII, Latin-1 and Cyrillic
    (U+0400..U+042F); every other code point is left unchanged. *)
Definition lower_cp (c : Z) : Z :=
  if (65 <=? c) && (c <=? 90) then c + 32
  else if (192 <=? c) && (c <=? 222) && negb (c =? 215) then c + 32
  else if (1040 <=? c) && (c <=? 1071) then c + 32
  else if (1024 <=? c) && (c <=? 1039) then c + 80
  else c.

Definition lower (s : pystr) : pystr := map lower_cp s.

(** [str.split(sep)] *)
Fixpoint split_on (sep : Z) (s : pystr) : list pystr :=
  match s with
  | [] => [[]]
  | c :: s' =>
      if c =? sep then [] :: split_on sep s'
      else match split_on sep s' with
           | h :: t => (c :: h) :: t
           | [] => [[c]]
           end
  end.

(** A Python dict with insertion order: an association list. *)
Fixpoint dict_get {V} (k : pystr) (d : list (pystr * V)) : option V :=
  match d with
  | [] => None
  | (k', v) :: d' => if str_eqb k k' then Some v else dict_get k d'
  end.

(** [d[k] = v]: overwrite in place, or append a new key. *)
Fixpoint dict_set {V} (k : pystr) (v : V) (d : list (pystr * V)) : list (pystr * V) :=
  match d with
  | [] => [(k, v)]
  | (k', v') :: d' =>
      if str_eqb k k' then (k', v) :: d' else (k', v') :: dict_set k v d'
  end.

(* ------------------------------------------------------------------ *)
(** ** Answer normalisation (learning_test.py) *)

Definition ALLOWED_TYPOS : list (pystr * pystr) :=
  [ (u "прстите", u "простите");
    (u "извните", u "извините");
    (u "сори", u "sorry");
    (u "вада", u "вода");
    (u "ватер", u "water");
    (u "йес", u "yes");
    (u "ноу", u "no");
    (u "хелло", u "hello");
    (u "санкс", u "thanks");
    (u "тхак ю", u "thank you") ].

(** [d.get(k, default)] *)
Definition dict_get_default {V} (k : pystr) (dflt : V) (d : list (pystr * V)) : V :=
  match dict_get k d with Some v => v | None => dflt end.

(** Lines 150-152 of [handle_test_response]:
    [user_answer = user_answer.strip().lower()]
    [user_answer = ALLOWED_TYPOS.get(user_answer, user_answer)] *)
Definition normalize_answer (user_answer : pystr) : pystr :=
  let a := lower (strip user_answer) in
  dict_get_default a a ALLOWED_TYPOS.

(* ------------------------------------------------------------------ *)
(** ** The dictionary file and translator.py *)

(** An [<entry><en>..</en><ru>..</ru></entry>] of dictionary.xml, with
    the raw texts of its two children. *)
Abbreviation xml_entry := (pystr * pystr)%type.

(** The loop body of [load_dictionary]: [dictionary[ru] = en] then
    [dictionary[en] = ru].  Both directions go into one dict, so a later
    entry overwrites the keys it shares with an earlier one. *)
Definition load_entry (dictionary : gmap pystr pystr) (e : xml_entry) : gmap pystr pystr :=
  let en := lower (strip e.1) in
  let ru := lower (strip e.2) in
  <[en := ru]> (<[ru := en]> dictionary).

Definition load_dictionary (entries : list xml_entry) : gmap pystr pystr :=
  fold_left load_entry entries ∅.

Definition translate_word (dictionary : gmap pystr pystr) (word : pystr) : option pystr :=
  dictionary !! lower (strip word).

Definition is_in_dictionary (dictionary : gmap pystr pystr) (word : pystr) : bool :=
  bool_decide (is_Some (dictionary !! lower (strip word))).

(** [load_words_from_xml] of learning_test.py (same file). *)
Definition load_words_from_xml (entries : list xml_entry) : list (pystr * pystr) :=
  filter (fun w : pystr * pystr => w.1 <> [] /\ w.2 <> [])
    (map (fun e : xml_entry => (lower (strip e.1), lower (strip e.2))) entries).

(* ------------------------------------------------------------------ *)
(** ** The database (database.py) *)

Record user_word_row := {
  uw_user_id : Z;
  uw_english_word : pystr;
  uw_russian_translation : pystr }.

(** A row of [tests]: the three totals are NULL until
    [update_test_session] writes them. *)
Record test_row := {
  t_test_id : nat;
  t_user_id : Z;
  t_totals : option (nat * nat * nat) }.

Record test_result_row := {
  r_test_id : nat;
  r_word : pystr;
  r_correct_answer : pystr;
  r_user_answer : pystr;
  r_is_correct : bool }.

(** The tables the claims touch; [next_test_id] is the SERIAL sequence of
    [tests.test_id] (it starts at 1). *)
Record store := {
  users : list Z;
  default_words : list (pystr * pystr);   (* ORDER BY word_id *)
  user_words : list user_word_row;        (* in insertion order *)
  next_test_id : nat;
  tests : list test_row;
  test_results : list test_result_row }.

Definition set_user_words (db : store) (t : list user_word_row) : store :=
  {| users := users db; default_words := default_words db; user_words := t;
     next_test_id := next_test_id db; tests := tests db;
     test_results := test_results db |}.

Definition set_tests (db : store) (n : nat) (t : list test_row) : store :=
  {| users := users db; default_words := default_words db;
     user_words := user_words db; next_test_id := n; tests := t;
     test_results := test_results db |}.

Definition set_test_results (db : store) (t : list test_result_row) : store :=
  {| users := users db; default_words := default_words db;
     user_words := user_words db; next_test_id := next_test_id db;
     tests := tests db; test_results := t |}.

Definition uw_key_is (user_id : Z) (english_word : pystr) (r : user_word_row) : bool :=
  bool_decide (uw_user_id r = user_id) && str_eqb (uw_english_word r) english_word.

(** Assignment to a [VARCHAR(n)] column: a longer string raises, unless
    the characters past [n] are all spaces, which are cut off. *)
Definition varchar (n : nat) (s : pystr) : option pystr :=
  if Nat.leb (length s) n then Some s
  else if forallb (fun c => c =? 32) (skipn n s) then Some (firstn n s)
  else None.

(** [add_user_word]: [INSERT .. ON CONFLICT (user_id, english_word) DO
    NOTHING] with lowercased arguments; the result is
    ["INSERT 0 1" in result].  Both columns are [VARCHAR(255)], and the
    foreign key on [users] makes the insert raise for an unknown user;
    the [except] turns either error into [False]. *)
Definition add_user_word (db : store) (user_id : Z) (english_word russian_translation : pystr)
  : bool * store :=
  match varchar 255 (lower english_word), varchar 255 (lower russian_translation) with
  | Some en, Some ru =>
      if negb (bool_decide (user_id ∈ users db)) then (false, db)
      else if existsb (uw_key_is user_id en) (user_words db) then (false, db)
      else (true, set_user_words db (user_words db ++
              [{| uw_user_id := user_id; uw_english_word := en;
                  uw_russian_translation := ru |}]))
  | _, _ => (false, db)
  end.

(** [get_user_words]: [ORDER BY added_date DESC], newest first. *)
Definition get_user_words (db : store) (user_id : Z) : list (pystr * pystr) :=
  rev (map (fun r => (uw_english_word r, uw_russian_translation r))
         (filter (fun r => uw_user_id r = user_id) (user_words db))).

(** [get_default_words(limit=12)] *)
Definition get_default_words (db : store) : list (pystr * pystr) :=
  firstn 12 (default_words db).

(** [get_possible_translations]: default rows then the user's rows;
    [list(set(..))] is kept as a list, only membership is used. *)
Definition db_get_possible_translations (db : store) (en_word : pystr) (user_id : Z)
  : list pystr :=
  map snd (filter (fun w => w.1 = lower en_word) (default_words db)) ++
  map uw_russian_translation
    (filter (fun r => uw_key_is user_id (lower en_word) r = true) (user_words db)).

(** [create_test_session]: [INSERT .. RETURNING test_id].  The foreign
    key [tests.user_id REFERENCES users] makes the insert raise for an
    unknown user, which the [except] turns into [None]; the [SERIAL]
    sequence has already handed out the id, and [nextval] is not rolled
    back, so the next id advances in both cases. *)
Definition create_test_session (db : store) (user_id : Z) : option nat * store :=
  let tid := next_test_id db in
  if bool_decide (user_id ∈ users db) then
    (Some tid, set_tests db (S tid)
                 (tests db ++ [{| t_test_id := tid; t_user_id := user_id; t_totals := None |}]))
  else (None, set_tests db (S tid) (tests db)).

(** [add_test_result]; [ok = false] is a failed INSERT, logged and
    swallowed by the [except]. *)
Definition add_test_result (ok : bool) (db : store) (test_id : nat)
  (word correct_answer user_answer : pystr) (is_correct : bool) : store :=
  if ok then
    set_test_results db (test_results db ++
      [{| r_test_id := test_id; r_word := word; r_correct_answer := correct_answer;
          r_user_answer := user_answer; r_is_correct := is_correct |}])
  else db.

(** [update_test_session]: [UPDATE tests SET .. WHERE test_id = $1];
    [ok = false] is a failed UPDATE. *)
Definition update_test_session (ok : bool) (db : store) (test_id : nat)
  (questions_answered correct_answers incorrect_answers : nat) : store :=
  if ok then
    set_tests db (next_test_id db)
      (map (fun t => if Nat.eqb (t_test_id t) test_id then
               {| t_test_id := t_test_id t; t_user_id := t_user_id t;
                  t_totals := Some (questions_answered, correct_answers, incorrect_answers) |}
             else t) (tests db))
  else db.

Definition find_test (db : store) (test_id : nat) : option test_row :=
  find (fun t => Nat.eqb (t_test_id t) test_id) (tests db).

Definition count_results (db : store) (test_id : nat) : nat :=
  length (filter (fun r => r_test_id r = test_id) (test_results db)).

(* ------------------------------------------------------------------ *)
(** ** The quiz engine (learning_test.py) *)

Inductive question_type := en_to_ru | ru_to_en.
Inductive word_type := wt_user | wt_default | wt_xml.

(** The FSM data of one conversation.  [state.clear()] empties it, after
    which every [data.get(key, default)] of the source yields the
    default; [empty_data] holds those defaults. *)
Record quiz_data := {
  test_id : option nat;
  test_in_progress : bool;
  questions_answered : nat;
  correct_answers : nat;
  incorrect_answers : nat;
  current_word : pystr;
  d_word_type : word_type;
  d_question_type : question_type;
  test_correct_answer : pystr;
  original_ru_word : pystr;
  test_questions : list (pystr * pystr * bool) }.

Definition empty_data : quiz_data :=
  {| test_id := None; test_in_progress := false; questions_answered := 0;
     correct_answers := 0; incorrect_answers := 0; current_word := [];
     d_word_type := wt_default; d_question_type := en_to_ru;
     test_correct_answer := []; original_ru_word := []; test_questions := [] |}.

(** Line 91: [list({word[0]: word for word in words}.values())]. *)
Definition dedup_by_english (words : list (pystr * pystr)) : list (pystr * pystr) :=
  map snd (fold_left (fun acc w => dict_set w.1 w acc) words []).

(** [random.choice(l)], with the random draw [r] as an input. *)
Definition random_choice {A} (l : list A) (r : nat) (dflt : A) : A :=
  nth (r mod length l) l dflt.

(** [start_learning_test]: [r] and [qt] are the two random draws.  The
    result is [(question, correct_answer)], or [None] for
    [return None, None, None]. *)
Definition start_learning_test (xml : list xml_entry) (db : store) (user_id : Z)
  (d : quiz_data) (r : nat) (qt : question_type)
  : option (pystr * pystr) * quiz_data * store :=
  let '(od1, db1) :=
    if test_in_progress d then (Some d, db)
    else match create_test_session db user_id with
         | (Some (S _ as tid), db') =>
             (Some {| test_id := Some tid; test_in_progress := true; questions_answered := 0;
                      correct_answers := 0; incorrect_answers := 0;
                      current_word := current_word d; d_word_type := d_word_type d;
                      d_question_type := d_question_type d;
                      test_correct_answer := test_correct_answer d;
                      original_ru_word := original_ru_word d; test_questions := [] |}, db')
         | (_, db') => (None, db')   (* if not test_id: return None, None, None *)
         end in
  match od1 with
  | None => (None, d, db1)
  | Some d1 =>
  let uw := get_user_words db1 user_id in
  let dw := get_default_words db1 in
  let xw := load_words_from_xml xml in
  let all_words := dedup_by_english (uw ++ dw ++ xw) in
  match all_words with
  | [] => (None, d1, db1)
  | w0 :: _ =>
      let '(en_word, ru_word) := random_choice all_words r w0 in
      let wt := if bool_decide ((en_word, ru_word) ∈ uw) then wt_user
                else if bool_decide ((en_word, ru_word) ∈ dw) then wt_default
                else wt_xml in
      let '(question, correct_answer) :=
        match qt with
        | en_to_ru => (u "Переведите слово: " ++ en_word, ru_word)
        | ru_to_en => (u "Как будет '" ++ ru_word ++ u "' по-английски?", en_word)
        end in
      (Some (question, correct_answer),
       {| test_id := test_id d1; test_in_progress := test_in_progress d1;
          questions_answered := questions_answered d1;
          correct_answers := correct_answers d1;
          incorrect_answers := incorrect_answers d1;
          current_word := en_word; d_word_type := wt; d_question_type := qt;
          test_correct_answer := correct_answer; original_ru_word := ru_word;
          test_questions := test_questions d1 |}, db1)
  end
  end.

Definition not_blank (t : pystr) : bool := negb (bool_decide (strip t = [])).

(** [_get_possible_translations]: the dictionary's comma-separated
    alternatives, then the stored translations ([set] order not modelled). *)
Definition get_possible_translations (dictionary : gmap pystr pystr) (db : store)
  (word : pystr) (user_id : Z) : list pystr :=
  let from_dict :=
    if is_in_dictionary dictionary word then
      match translate_word dictionary word with
      | Some translated =>
          if bool_decide (translated <> []) then
            map (fun t => lower (strip t)) (filter (fun t => not_blank t = true)
                                              (split_on 44 translated))
          else []
      | None => []
      end
    else [] in
  let db_translations := db_get_possible_translations db word user_id in
  from_dict ++ map lower (filter (fun t => not_blank t = true) db_translations).

(** [_check_answer] *)
Definition check_answer (dictionary : gmap pystr pystr) (db : store)
  (user_answer correct_answer : pystr) (qt : question_type) (word : pystr)
  (user_id : Z) : bool * list pystr :=
  match qt with
  | ru_to_en => (str_eqb user_answer correct_answer, [correct_answer])
  | en_to_ru =>
      let pt := get_possible_translations dictionary db word user_id in
      (bool_decide (user_answer ∈ pt), pt)
  end.

(** [_save_test_results]; [update_user_progress] only writes the
    [user_progress] table, which no claim reads, and is left out. *)
Definition save_test_results (write_ok : bool) (db : store) (tid : nat)
  (word correct_answer user_answer : pystr) (is_correct : bool) (d : quiz_data)
  : quiz_data * store :=
  let qa := (questions_answered d + 1)%nat in
  let ca := (correct_answers d + (if is_correct then 1 else 0))%nat in
  let ia := (incorrect_answers d + (if is_correct then 0 else 1))%nat in
  let db' := add_test_result write_ok db tid word correct_answer user_answer is_correct in
  ({| test_id := test_id d; test_in_progress := test_in_progress d;
      questions_answered := qa; correct_answers := ca; incorrect_answers := ia;
      current_word := current_word d; d_word_type := d_word_type d;
      d_question_type := d_question_type d;
      test_correct_answer := test_correct_answer d;
      original_ru_word := original_ru_word d;
      test_questions := test_questions d ++ [(correct_answer, user_answer, is_correct)] |},
   db').

(** [handle_test_response]: returns [is_correct]; a missing test id is
    the [ValueError] caught by the [except] ([False], nothing saved). *)
Definition handle_test_response (xml : list xml_entry) (db : store) (user_id : Z)
  (user_answer correct_answer : pystr) (d : quiz_data) (write_ok : bool)
  : bool * quiz_data * store :=
  match test_id d with
  | None | Some O => (false, d, db)
  | Some tid =>
      let ua := normalize_answer user_answer in
      let '(is_correct, _) :=
        check_answer (load_dictionary xml) db ua (lower correct_answer)
          (d_question_type d) (current_word d) user_id in
      let '(d', db') := save_test_results write_ok db tid (current_word d)
                          correct_answer ua is_correct d in
      (is_correct, d', db')
  end.

(** [end_test_and_show_results]: writes the counters into the session
    row and clears the FSM data ([update_leaderboard] is left out). *)
Definition end_test_and_show_results (update_ok : bool) (db : store) (d : quiz_data)
  : quiz_data * store :=
  match test_id d with
  | None | Some O => (d, db)
  | Some tid =>
      (empty_data, update_test_session update_ok db tid (questions_answered d)
                     (correct_answers d) (incorrect_answers d))
  end.

(** What the conversation does within one quiz: ask the next question
    (two random draws) or receive an answer (and whether the INSERT of
    its result succeeded).  The bot passes [data['test_correct_answer']]
    as the expected answer. *)
Inductive quiz_event :=
  | NextQuestion (r : nat) (qt : question_type)
  | AnswerGiven (raw : pystr) (write_ok : bool).

Definition quiz_step (xml : list xml_entry) (user_id : Z)
  (s : quiz_data * store) (ev : quiz_event) : quiz_data * store :=
  let '(d, db) := s in
  match ev with
  | NextQuestion r qt =>
      let '(_, d', db') := start_learning_test xml db user_id d r qt in (d', db')
  | AnswerGiven raw ok =>
      let '(_, d', db') := handle_test_response xml db user_id raw
                             (test_correct_answer d) d ok in (d', db')
  end.

Definition run_quiz (xml : list xml_entry) (user_id : Z) (s : quiz_data * store)
  (evs : list quiz_event) : quiz_data * store :=
  fold_left (quiz_step xml user_id) evs s.

(** A whole session: the first question, the events, then the end. *)
Definition quiz_session (xml : list xml_entry) (db : store) (user_id : Z)
  (r : nat) (qt : question_type) (evs : list quiz_event) (update_ok : bool)
  : quiz_data * store :=
  let '(_, d1, db1) := start_learning_test xml db user_id empty_data r qt in
  let '(d2, db2) := run_quiz xml user_id (d1, db1) evs in
  end_test_and_show_results update_ok db2 d2.

(* ------------------------------------------------------------------ *)
(** ** The results summary ([_format_results_message]) *)

Inductive py_error := ZeroDivisionError.

(** Floating-point arithmetic is left abstract: [int_to_float] is the
    conversion Python applies to the operands of [/], [fdiv] the IEEE
    division (called only on a nonzero divisor), [fmul] the product and
    [fround] the builtin [round]. *)
Section FormatResults.
Variable float : Type.
Variable int_to_float : nat -> float.
Variable fdiv fmul : float -> float -> float.
Variable fround : float -> Z.

(** Python's [a / b] on ints. *)
Definition py_truediv (a b : nat) : py_error + float :=
  if Nat.eqb b 0 then inl ZeroDivisionError
  else inr (fdiv (int_to_float a) (int_to_float b)).

(** Line 328: [round((correct_answers / questions_answered) * 100)
    if questions_answered > 0 else 0]. *)
Definition results_percentage (questions_answered correct_answers : nat) : py_error + Z :=
  if Nat.ltb 0 questions_answered then
    match py_truediv correct_answers questions_answered with
    | inl e => inl e
    | inr x => inr (fround (fmul x (int_to_float 100)))
    end
  else inr 0.
End FormatResults.

(* ------------------------------------------------------------------ *)
(** ** Auxiliary predicates of the proofs *)

Definition keyed (d : list (pystr * (pystr * pystr))) : Prop :=
  Forall (fun kv => kv.2.1 = kv.1) d.

Definition counters (d : quiz_data) : option nat * bool * nat * nat * nat :=
  (test_id d, test_in_progress d, questions_answered d, correct_answers d,
   incorrect_answers d).

Definition db_empty : store :=
  {| users := [7]; default_words := []; user_words := []; next_test_id := 1;
     tests := []; test_results := [] |}.

Definition balanced (d : quiz_data) : Prop :=
  questions_answered d = (correct_answers d + incorrect_answers d)%nat.

Definition db_wf (db : store) : Prop :=
  (1 <= next_test_id db)%nat /\
  Forall (fun t => t_test_id t < next_test_id db)%nat (tests db) /\
  Forall (fun r => r_test_id r < next_test_id db)%nat (test_results db) /\
  (* [tests.user_id REFERENCES users]; no user row is ever deleted *)
  Forall (fun t => t_user_id t ∈ users db) (tests db).

Definition answers_persisted (evs : list quiz_event) : bool :=
  forallb (fun ev => match ev with AnswerGiven _ ok => ok | NextQuestion _ _ => true end) evs.

Definition session_inv (n : nat) (T : list test_row) (s : quiz_data * store) : Prop :=
  test_id s.1 = Some n /\ test_in_progress s.1 = true /\ tests s.2 = T /\
  balanced s.1 /\ (correct_answers s.1 + incorrect_answers s.1 = count_results s.2 n)%nat.

(** The UNIQUE (user_id, english_word) constraint of [user_words]. *)
Definition user_words_unique (db : store) : Prop :=
  NoDup (map (fun r => (uw_user_id r, uw_english_word r)) (user_words db)).

(** The answers [check_answer] accepts for an english->russian question,
    read off [get_possible_translations]: blank entries are left out. *)
Definition accepted_translations (xml : list xml_entry) (db : store) (word : pystr)
  (user_id : Z) (a : pystr) : Prop :=
  (exists t alt, translate_word (load_dictionary xml) word = Some t /\
     alt ∈ split_on 44 t /\ not_blank alt = true /\ a = lower (strip alt)) \/
  (exists ru, ((lower word, ru) ∈ default_words db \/
               exists row, row ∈ user_words db /\ uw_user_id row = user_id /\
                 uw_english_word row = lower word /\ uw_russian_translation row = ru) /\
     not_blank ru = true /\ a = lower ru).

(** The same set with the blank entries kept. *)
Definition translations_as_claimed (xml : list xml_entry) (db : store) (word : pystr)
  (user_id : Z) (a : pystr) : Prop :=
  (exists t alt, translate_word (load_dictionary xml) word = Some t /\
     alt ∈ split_on 44 t /\ a = lower (strip alt)) \/
  (exists ru, ((lower word, ru) ∈ default_words db \/
               exists row, row ∈ user_words db /\ uw_user_id row = user_id /\
                 uw_english_word row = lower word /\ uw_russian_translation row = ru) /\
     a = lower ru).

Definition db_blank_translation : store :=
  {| users := [7]; default_words := [];
     user_words := [{| uw_user_id := 7; uw_english_word := u "cat";
                       uw_russian_translation := [] |}];
     next_test_id := 1; tests := []; test_results := [] |}.

Definition en_to_ru_question (tid : nat) (en ru : pystr) : quiz_data :=
  {| test_id := Some tid; test_in_progress := true; questions_answered := 0;
     correct_answers := 0; incorrect_answers := 0; current_word := en;
     d_word_type := wt_user; d_question_type := en_to_ru;
     test_correct_answer := ru; original_ru_word := ru; test_questions := [] |}.

Definition db_with_default_word : store :=
  {| users := [7]; default_words := [(u "water", u "вода")]; user_words := [];
     next_test_id := 2; tests := []; test_results := [] |}.

Definition db_with_user_word (en ru : pystr) : store :=
  {| users := [7]; default_words := [];
     user_words := [{| uw_user_id := 7; uw_english_word := en;
                       uw_russian_translation := ru |}];
     next_test_id := 2; tests := []; test_results := [] |}.

(* ================================================================== *)
(** * The bot handlers and the rest of database.py *)

(* ------------------------------------------------------------------ *)
(** ** Python helpers used by the handlers *)

(** The decimal digits of a [Decimal.uint], as code points. *)
Fixpoint uint_digits (d : Decimal.uint) : pystr :=
  match d with
  | Decimal.Nil => []
  | Decimal.D0 d => 48 :: uint_digits d
  | Decimal.D1 d => 49 :: uint_digits d
  | Decimal.D2 d => 50 :: uint_digits d
  | Decimal.D3 d => 51 :: uint_digits d
  | Decimal.D4 d => 52 :: uint_digits d
  | Decimal.D5 d => 53 :: uint_digits d
  | Decimal.D6 d => 54 :: uint_digits d
  | Decimal.D7 d => 55 :: uint_digits d
  | Decimal.D8 d => 56 :: uint_digits d
  | Decimal.D9 d => 57 :: uint_digits d
  end.

(** [str(n)] for an int (an f-string field). *)
Definition py_str_int (n : Z) : pystr :=
  match Z.to_int n with
  | Decimal.Pos d => uint_digits d
  | Decimal.Neg d => 45 :: uint_digits d
  end.

Fixpoint is_prefix (p s : pystr) : bool :=
  match p, s with
  | [], _ => true
  | a :: p', b :: s' => (a =? b) && is_prefix p' s'
  | _ :: _, [] => false
  end.

(** [needle in hay] for strings. *)
Fixpoint str_contains (needle hay : pystr) : bool :=
  is_prefix needle hay ||
  match hay with
  | [] => false
  | _ :: hay' => str_contains needle hay'
  end.

(** [s.split(sep, 1)] for a one-character separator. *)
Fixpoint split_once (sep : Z) (s : pystr) : list pystr :=
  match s with
  | [] => [[]]
  | c :: s' =>
      if c =? sep then [[]; s']
      else match split_once sep s' with
           | h :: t => (c :: h) :: t
           | [] => [[c]]
           end
  end.

(** The index normalisation of a slice [l[a:b]]. *)
Definition slice_index (len i : Z) : Z :=
  if i <? 0 then Z.max 0 (len + i) else Z.min i len.

(** [l[a:b]] *)
Definition py_slice {A} (l : list A) (a b : Z) : list A :=
  let n := Z.of_nat (length l) in
  let a' := slice_index n a in
  let b' := slice_index n b in
  firstn (Z.to_nat (b' - a')) (skipn (Z.to_nat a') l).

(** [range(0, n, 2)] *)
Definition range_step2 (n : nat) : list nat :=
  map (fun k => 2 * k)%nat (seq 0 ((n + 1) / 2)).

(* ------------------------------------------------------------------ *)
(** ** More of database.py *)


(** [remove_user_word]: [DELETE .. WHERE user_id = $1 AND english_word = $2]
    with the lowercased word; the command tag is ["DELETE <count>"] and
    the result is ["DELETE 1" in result]. *)
Definition remove_user_word (db : store) (user_id : Z) (english_word : pystr)
  : bool * store :=
  let en := lower english_word in
  let deleted := filter (fun r => uw_key_is user_id en r = true) (user_words db) in
  let result := u "DELETE " ++ py_str_int (Z.of_nat (length deleted)) in
  (str_contains (u "DELETE 1") result,
   set_user_words db (filter (fun r => uw_key_is user_id en r = false) (user_words db))).

(** [fetchrow] of a query without [ORDER BY]: the server may return any
    matching row.  [k] picks it: the [k mod n]-th of the [n] matches in
    insertion order. *)
Definition fetchrow_any {A} (k : nat) (rows : list A) : option A :=
  match rows with
  | [] => None
  | r0 :: _ => Some (nth (k mod length rows) rows r0)
  end.

(** [get_word_translation], with [k] the row [fetchrow] returns.  The
    ['user'] query has no [user_id] condition. *)
Definition get_word_translation (k : nat) (db : store) (word : pystr) (word_type : pystr)
  : option pystr :=
  if str_eqb word_type (u "default") then
    option_map snd (fetchrow_any k (filter (fun w => w.1 = lower word) (default_words db)))
  else
    option_map uw_russian_translation
      (fetchrow_any k (filter (fun r => uw_english_word r = lower word) (user_words db))).

(** [get_test_results]: [WHERE test_id = $1 ORDER BY id]. *)
Definition get_test_results (db : store) (test_id : nat) : list test_result_row :=
  filter (fun r => r_test_id r = test_id) (test_results db).

(** The user's sessions [ORDER BY start_time DESC]: [start_time] is
    [NOW()] at creation, so the newest session comes first. *)
Definition user_tests_newest_first (db : store) (user_id : Z) : list test_row :=
  rev (filter (fun t => t_user_id t = user_id) (tests db)).

(** [get_user_test_history(user_id, limit=10)] *)
Definition get_user_test_history (db : store) (user_id : Z) : list test_row :=
  firstn 10 (user_tests_newest_first db user_id).

(** [get_user_last_test_results]: the newest session's id, then
    [if test_id:] its results. *)
Definition get_user_last_test_results (db : store) (user_id : Z) : list test_result_row :=
  match user_tests_newest_first db user_id with
  | t :: _ => if Nat.eqb (t_test_id t) 0 then [] else get_test_results db (t_test_id t)
  | [] => []
  end.

(** The [leaderboard] table: user id, then (total_tests, total_correct,
    total_incorrect); [last_test] is not modelled. *)
Abbreviation leaderboard := (list (Z * (nat * nat * nat)))%type.

(** [update_leaderboard]: [INSERT .. VALUES ($1, 1, $2, $3, NOW()) ON
    CONFLICT (user_id) DO UPDATE SET ..]; the foreign key on [users]
    makes the insert raise for an unknown user, which is logged. *)
Fixpoint leaderboard_upsert (lb : leaderboard) (user_id : Z) (correct incorrect : nat)
  : leaderboard :=
  match lb with
  | [] => [(user_id, (1%nat, correct, incorrect))]
  | (k, (nt, tc, ti)) :: lb' =>
      if Z.eqb k user_id then (k, (S nt, (tc + correct)%nat, (ti + incorrect)%nat)) :: lb'
      else (k, (nt, tc, ti)) :: leaderboard_upsert lb' user_id correct incorrect
  end.

Definition update_leaderboard (users : list Z) (lb : leaderboard) (user_id : Z)
  (correct incorrect : nat) : leaderboard :=
  if bool_decide (user_id ∈ users) then leaderboard_upsert lb user_id correct incorrect
  else lb.

Fixpoint leaderboard_get (lb : leaderboard) (user_id : Z) : option (nat * nat * nat) :=
  match lb with
  | [] => None
  | (k, v) :: lb' => if Z.eqb k user_id then Some v else leaderboard_get lb' user_id
  end.

(* ------------------------------------------------------------------ *)
(** ** The bot handlers (bot.py) *)

(** [InlineKeyboardButton(text=.., callback_data=..)] *)
Record button := { b_text : pystr; b_data : pystr }.

Definition mk_button (text data : pystr) : button := {| b_text := text; b_data := data |}.

Definition add_word_button : button := mk_button (u "➕ Добавить слово") (u "add_word").

Definition word_button (en_word : pystr) : button := mk_button en_word (u "word_" ++ en_word).

(** The row built for index [i] of the loop over [range(0, len(page_words), 2)]. *)
Definition word_row (page_words : list (pystr * pystr)) (i : nat) : list button :=
  (if Nat.ltb i (length page_words)
   then [word_button (nth i page_words ([], [])).1] else []) ++
  (if Nat.ltb (i + 1) (length page_words)
   then [word_button (nth (i + 1) page_words ([], [])).1] else []).

Definition back_page_button (page : Z) : button :=
  mk_button (u "⬅️ Назад") (u "page_" ++ py_str_int (page - 1)).

Definition next_page_button (page : Z) : button :=
  mk_button (u "Вперёд ➡️") (u "page_" ++ py_str_int (page + 1)).

Definition action_row : list button :=
  [add_word_button;
   mk_button (u "🔙 Удалить слово") (u "remove_word");
   mk_button (u "📘 Перевести слово") (u "translate");
   mk_button (u "🧠 Тест") (u "start_test")].

(** [create_words_keyboard(user_id, page)] *)
Definition create_words_keyboard (db : store) (user_id : Z) (page : Z) : list (list button) :=
  let all_words := get_default_words db ++ get_user_words db user_id in
  match all_words with
  | [] => [[add_word_button]]
  | _ :: _ =>
      let words_per_page := 6 in
      let start_idx := page * words_per_page in
      let end_idx := start_idx + words_per_page in
      let page_words := py_slice all_words start_idx end_idx in
      let buttons := map (word_row page_words) (range_step2 (length page_words)) in
      let nav_buttons :=
        (if 0 <? page then [back_page_button page] else []) ++
        (if end_idx <? Z.of_nat (length all_words) then [next_page_button page] else []) in
      buttons ++ (match nav_buttons with [] => [] | _ :: _ => [nav_buttons] end) ++ [action_row]
  end.

(** The word buttons of a keyboard, in order. *)
Definition word_buttons (kb : list (list button)) : list button :=
  filter (fun b => is_prefix (u "word_") (b_data b) = true) (concat kb).

(** [show_word_translation]: [word = callback.data.split("_", 1)[1]],
    then [get_word_translation(word) or get_word_translation(word, 'user')];
    [k1] and [k2] are the rows the two [fetchrow] calls return.
    [None] is the caught [IndexError]; [Some None] the "not found" text. *)
Definition show_word_translation (k1 k2 : nat) (db : store) (data : pystr)
  : option (option pystr) :=
  match nth_error (split_once 95 data) 1 with
  | None => None
  | Some word =>
      let translation :=
        match get_word_translation k1 db word (u "default") with
        | Some t => if bool_decide (t = []) then get_word_translation k2 db word (u "user")
                    else Some t
        | None => get_word_translation k2 db word (u "user")
        end in
      Some (match translation with
            | Some t => if bool_decide (t = []) then None else Some t
            | None => None
            end)
  end.

(** The buttons of [start_remove_word]: one per word of the user. *)
Definition remove_buttons (db : store) (user_id : Z) : list button :=
  map (fun w => mk_button (w.1 ++ u " - " ++ w.2) (u "remove_" ++ w.1))
    (get_user_words db user_id).

(** [remove_word]: [word = callback.data.split("_", 1)[1]] then
    [db.remove_user_word(user_id, word)]; [None] is the caught [IndexError]. *)
Definition remove_word (db : store) (user_id : Z) (data : pystr) : option (bool * store) :=
  match nth_error (split_once 95 data) 1 with
  | None => None
  | Some word => Some (remove_user_word db user_id word)
  end.

(** The states of [Form]; [S_none] is no state (after [state.clear()]). *)
Inductive fsm_state :=
  | S_none | S_adding_word | S_removing_word | S_translating_word
  | S_adding_translation | S_test.

(** The callback query handlers of bot.py. *)
Inductive callback_handler :=
  | H_show_word_translation | H_change_page | H_start_add_word
  | H_start_remove_word | H_remove_word | H_start_translate
  | H_start_test_handler | H_end_test_handler | H_cancel_handler
  | H_show_test_history_handler | H_show_last_test_details | H_back_to_menu.

(** The dispatcher: the first registered handler whose filters accept the
    query runs (a handler without a state filter accepts every state);
    [None] when no handler does. *)
Definition route_callback (st : fsm_state) (data : pystr) : option callback_handler :=
  if is_prefix (u "word_") data then Some H_show_word_translation
  else if is_prefix (u "page_") data then Some H_change_page
  else if str_eqb data (u "add_word") then Some H_start_add_word
  else if str_eqb data (u "remove_word") then Some H_start_remove_word
  else if is_prefix (u "remove_") data &&
          match st with S_removing_word => true | _ => false end
  then Some H_remove_word
  else if str_eqb data (u "translate") then Some H_start_translate
  else if str_eqb data (u "start_test") then Some H_start_test_handler
  else if str_eqb data (u "end_test") then Some H_end_test_handler
  else if str_eqb data (u "cancel") then Some H_cancel_handler
  else if str_eqb data (u "test_history") then Some H_show_test_history_handler
  else if str_eqb data (u "last_test_details") then Some H_show_last_test_details
  else if str_eqb data (u "menu") then Some H_back_to_menu
  else None.

(** What [process_add_word] answers; [add_translation_handler] (lines
    300-339) runs the same code with other texts.  [AddError] is the
    [except] branch.  The Bot API calls ([message.answer],
    [state.clear]) are taken to succeed. *)
Inductive add_word_outcome :=
  | AddCancelled
  | AddFormatHint
  | AddError
  | WordAdded (en_word ru_translation : pystr)
  | WordExists (en_word : pystr).

Definition BACK_TEXT : pystr := u "⬅ Назад".

(** [message.text] is [None] for a message without text (a photo, a
    sticker, ...); [None.strip()] raises the [AttributeError] that the
    [except] catches. *)
Definition process_add_word (db : store) (user_id : Z) (message_text : option pystr)
  : add_word_outcome * store :=
  match message_text with
  | None => (AddError, db)
  | Some message_text =>
  let text := strip message_text in
  if str_eqb text BACK_TEXT then (AddCancelled, db)
  else if negb (bool_decide (45 ∈ text)) then (AddFormatHint, db)
  else
    let parts := split_once 45 text in
    if Nat.ltb (length parts) 2 then (AddFormatHint, db)
    else match map strip parts with
         | [en_word; ru_translation] =>
             let '(ok, db') := add_user_word db user_id en_word ru_translation in
             (if ok then WordAdded en_word ru_translation else WordExists en_word, db')
         | _ => (AddError, db)   (* the unpacking [ValueError] *)
         end
  end.

(** What [translate_input] answers. *)
Inductive translate_outcome :=
  | Translated (word result : pystr)
  | InDictionaryUnrecognised
  | AskForTranslation (word : pystr).

Definition translate_input (dictionary : gmap pystr pystr) (message_text : pystr)
  : translate_outcome :=
  let word := strip message_text in
  let result := translate_word dictionary word in
  match result with
  | Some r => if bool_decide (r = []) then
                (if is_in_dictionary dictionary word then InDictionaryUnrecognised
                 else AskForTranslation word)
              else Translated word r
  | None => if is_in_dictionary dictionary word then InDictionaryUnrecognised
            else AskForTranslation word
  end.

(** [cancel_handler]: the message sent (if any), the FSM data after
    [state.clear()], and the store. *)
Definition cancel_handler (update_ok : bool) (db : store) (d : quiz_data)
  : option pystr * quiz_data * store :=
  if test_in_progress d then
    match test_id d with
    | Some (S _ as tid) =>
        if Nat.ltb 0 (questions_answered d) then
          (Some (u "Тест отменен. Прогресс сохранен."), empty_data,
           update_test_session update_ok db tid (questions_answered d)
             (correct_answers d) (incorrect_answers d))
        else (Some (u "Тест отменен."), empty_data, db)
    | _ => (Some (u "Тест отменен."), empty_data, db)
    end
  else (None, empty_data, db).

(** [show_test_history]: the "no history" text, or the numbered entries;
    [enumerate(tests, 1)] runs before the [continue] that skips sessions
    whose totals are NULL.  Percentages and times are not modelled. *)
Inductive history_view :=
  | NoHistory
  | History (entries : list (nat * (nat * nat * nat))).

Fixpoint history_entries (i : nat) (ts : list test_row) : list (nat * (nat * nat * nat)) :=
  match ts with
  | [] => []
  | t :: ts' =>
      match t_totals t with
      | None => history_entries (S i) ts'
      | Some tot => (i, tot) :: history_entries (S i) ts'
      end
  end.

Definition show_test_history (db : store) (user_id : Z) : history_view :=
  match get_user_test_history db user_id with
  | [] => NoHistory
  | tests => History (history_entries 1 tests)
  end.

(** [str.rstrip()] *)
Definition rstrip (s : pystr) : pystr := rev (lstrip (rev s)).

(** The english words stored in [user_words] are lowercase (every insert
    lowercases them). *)
Definition english_lower (db : store) : Prop :=
  Forall (fun r => lower (uw_english_word r) = uw_english_word r) (user_words db).

(** One step of the leaderboard totals of a user: a new row, or the
    sums with the previous row. *)
Definition leaderboard_totals_step (o : option (nat * nat * nat)) (g : nat * nat)
  : option (nat * nat * nat) :=
  Some (match o with
        | None => (1%nat, g.1, g.2)
        | Some (nt, tc, ti) => (S nt, (tc + g.1)%nat, (ti + g.2)%nat)
        end).

(** A store with one finished session (with a result) of user 7. *)
Definition db_with_session : store :=
  {| users := [7]; default_words := [(u "water", u "вода")]; user_words := [];
     next_test_id := 2;
     tests := [{| t_test_id := 1; t_user_id := 7; t_totals := Some (1%nat, 1%nat, 0%nat) |}];
     test_results := [{| r_test_id := 1; r_word := u "water"; r_correct_answer := u "вода";
                         r_user_answer := u "вода"; r_is_correct := true |}] |}.

(* ================================================================== *)
(** * Properties *)

(** ** Strings: [strip] and [lower] *)

Ltac zcmp :=
  repeat match goal with
  | |- context [?a <=? ?b] => destruct (Z.leb_spec a b)
  | |- context [?a =? ?b] => destruct (Z.eqb_spec a b)
  end; simpl.

Lemma is_space_range c :
  is_space c = true -> c <= 32 \/ c = 133 \/ c = 160 \/ 5760 <= c.
Proof.
  unfold is_space. intros H.
  repeat rewrite ?orb_true_iff, ?andb_true_iff, ?Z.leb_le, ?Z.eqb_eq in H. lia.
Qed.

Lemma lower_cp_cases c :
  (lower_cp c = c /\ ~ (65 <= c <= 90) /\ ~ (192 <= c <= 222 /\ c <> 215) /\
   ~ (1024 <= c <= 1071)) \/
  ((65 <= c <= 90 \/ (192 <= c <= 222 /\ c <> 215) \/ 1040 <= c <= 1071) /\
   lower_cp c = c + 32) \/
  (1024 <= c <= 1039 /\ lower_cp c = c + 80).
Proof. unfold lower_cp. zcmp; lia. Qed.

Lemma is_space_lower_cp c : is_space (lower_cp c) = is_space c.
Proof.
  destruct (lower_cp_cases c) as [[-> _] | [[Hr ->] | [Hr ->]]]; [reflexivity | |];
  destruct (is_space c) eqn:E1; destruct (is_space (c + _)) eqn:E2;
  try reflexivity;
  repeat match goal with H : is_space _ = true |- _ => apply is_space_range in H end;
  lia.
Qed.

Lemma lower_cp_idem c : lower_cp (lower_cp c) = lower_cp c.
Proof.
  destruct (lower_cp_cases c) as [[E _] | [[Hr E] | [Hr E]]]; rewrite !E; [reflexivity | |];
  match goal with |- lower_cp ?x = _ =>
    destruct (lower_cp_cases x) as [[-> _] | [[Hr' _] | [Hr' _]]] end; lia.
Qed.

Lemma lstrip_map (f : Z -> Z) (s : pystr) :
  (forall c, is_space (f c) = is_space c) -> lstrip (map f s) = map f (lstrip s).
Proof.
  intros Hf. induction s as [|c s IH]; simpl; [reflexivity|].
  rewrite Hf. destruct (is_space c); [exact IH | reflexivity].
Qed.

Lemma lower_strip_comm (s : pystr) : lower (strip s) = strip (lower s).
Proof.
  unfold lower, strip.
  rewrite map_rev, <- (lstrip_map lower_cp) by apply is_space_lower_cp.
  rewrite map_rev, <- (lstrip_map lower_cp) by apply is_space_lower_cp.
  reflexivity.
Qed.

Lemma lower_idem (s : pystr) : lower (lower s) = lower s.
Proof.
  unfold lower. rewrite map_map. apply map_ext. apply lower_cp_idem.
Qed.

Lemma lstrip_length (s : pystr) : (length (lstrip s) <= length s)%nat.
Proof. induction s as [|c s IH]; simpl; [lia|]. destruct (is_space c); simpl; lia. Qed.

Lemma lstrip_idem (s : pystr) : lstrip (lstrip s) = lstrip s.
Proof.
  induction s as [|c s IH]; simpl; [reflexivity|].
  destruct (is_space c) eqn:E; [exact IH|]. simpl. rewrite E. reflexivity.
Qed.

Lemma lstrip_split (s : pystr) : exists p, s = p ++ lstrip s.
Proof.
  induction s as [|c s [p Hp]]; simpl; [exists []; reflexivity|].
  destruct (is_space c); [exists (c :: p); simpl; rewrite <- Hp | exists []]; reflexivity.
Qed.

Lemma lstrip_app_prefix (l m : pystr) :
  l <> [] -> lstrip (l ++ m) = l ++ m -> lstrip l = l.
Proof.
  destruct l as [|c l]; [congruence|]. intros _. simpl.
  destruct (is_space c); [|reflexivity].
  intros H. pose proof (lstrip_length (l ++ m)) as Hl. rewrite H in Hl. simpl in Hl. lia.
Qed.

Lemma strip_idem (s : pystr) : strip (strip s) = strip s.
Proof.
  unfold strip. set (a := lstrip s). set (b := lstrip (rev a)).
  assert (Ha : lstrip a = a) by apply lstrip_idem.
  destruct (lstrip_split (rev a)) as [p Hp]. fold b in Hp.
  assert (Hb : lstrip (rev b) = rev b).
  { destruct (rev b) as [|c r] eqn:Erb; [reflexivity|].
    apply (lstrip_app_prefix _ (rev p)); [congruence|].
    rewrite <- Erb, <- rev_app_distr, <- Hp, rev_involutive. exact Ha. }
  rewrite Hb, rev_involutive. unfold b. rewrite lstrip_idem. reflexivity.
Qed.

Lemma strip_lower_strip (s : pystr) : strip (lower (strip s)) = lower (strip s).
Proof. rewrite <- lower_strip_comm, strip_idem. reflexivity. Qed.

Lemma dict_get_in {V} (k : pystr) (v : V) (d : list (pystr * V)) :
  dict_get k d = Some v -> In v (map snd d).
Proof.
  induction d as [|[k' v'] d IH]; simpl; [discriminate|].
  destruct (str_eqb k k'); [intros [= ->]; left; reflexivity | right; auto].
Qed.

Lemma typo_values_normal :
  Forall (fun v => normalize_answer v = v) (map snd ALLOWED_TYPOS).
Proof. repeat constructor. Qed.

(** C7: answer normalisation (trim, lowercase, one lookup in the typo
    table) is idempotent. *)
Theorem normalize_answer_idempotent (s : pystr) :
  normalize_answer (normalize_answer s) = normalize_answer s.
Proof.
  unfold normalize_answer at 2 3. unfold dict_get_default.
  destruct (dict_get (lower (strip s)) ALLOWED_TYPOS) as [v|] eqn:E.
  - apply dict_get_in in E.
    exact (proj1 (List.Forall_forall _ _) typo_values_normal v E).
  - unfold normalize_answer, dict_get_default.
    rewrite strip_lower_strip, lower_idem, E. reflexivity.
Qed.

(** ** The question pool (C1) *)

Lemma str_eqb_spec (a b : pystr) : str_eqb a b = true <-> a = b.
Proof. unfold str_eqb. apply bool_decide_eq_true. Qed.

Lemma dict_get_set {V} (k k' : pystr) (v : V) (d : list (pystr * V)) :
  dict_get k (dict_set k' v d) = if str_eqb k k' then Some v else dict_get k d.
Proof.
  induction d as [|[k0 v0] d IH]; simpl; unfold str_eqb in *.
  - reflexivity.
  - destruct (decide (k' = k0)) as [<-|E1].
    + rewrite (bool_decide_eq_true_2 (k' = k')) by reflexivity. simpl.
      unfold str_eqb. case_bool_decide; reflexivity.
    + rewrite (bool_decide_eq_false_2 (k' = k0)) by exact E1. simpl.
      unfold str_eqb in *. rewrite IH. repeat case_bool_decide; subst; congruence.
Qed.

Lemma str_eqb_sym (a b : pystr) : str_eqb a b = str_eqb b a.
Proof. unfold str_eqb. apply bool_decide_ext. split; congruence. Qed.

Lemma str_eqb_neq (a b : pystr) : a <> b -> str_eqb a b = false.
Proof. intros H. unfold str_eqb. apply bool_decide_eq_false_2. exact H. Qed.

Lemma str_eqb_refl (a : pystr) : str_eqb a a = true.
Proof. apply str_eqb_spec. reflexivity. Qed.

Lemma dict_set_keys {V} (x k : pystr) (v : V) (d : list (pystr * V)) :
  x ∈ map fst (dict_set k v d) -> x = k \/ x ∈ map fst d.
Proof.
  induction d as [|[k0 v0] d IH]; simpl.
  - rewrite list_elem_of_singleton. auto.
  - unfold str_eqb. case_bool_decide as Hk; simpl; rewrite !elem_of_cons.
    + intros [->|Hx]; auto.
    + intros [->|Hx]; [auto|]. destruct (IH Hx); auto.
Qed.

Lemma dict_set_nodup {V} (k : pystr) (v : V) (d : list (pystr * V)) :
  NoDup (map fst d) -> NoDup (map fst (dict_set k v d)).
Proof.
  induction d as [|[k0 v0] d IH]; simpl; intros Hnd.
  - constructor; [set_solver | constructor].
  - apply NoDup_cons in Hnd as [Hn Hnd].
    unfold str_eqb. case_bool_decide as Hk; simpl; constructor; auto.
    intros Hin. apply dict_set_keys in Hin as [->|Hin]; auto.
Qed.

Lemma dict_set_keyed (k : pystr) (v : pystr * pystr) d :
  v.1 = k -> keyed d -> keyed (dict_set k v d).
Proof.
  unfold keyed. intros Hv. induction d as [|[k0 v0] d IH]; simpl; intros Hd.
  - constructor; [exact Hv | constructor].
  - apply Forall_cons in Hd as [H0 Hd]. simpl in H0.
    unfold str_eqb. case_bool_decide as Hk; constructor; simpl; auto; congruence.
Qed.

Lemma dict_get_notin {V} (k : pystr) (d : list (pystr * V)) :
  k ∉ map fst d -> dict_get k d = None.
Proof.
  induction d as [|[k0 v0] d IH]; simpl; [reflexivity|].
  rewrite elem_of_cons. intros Hn. unfold str_eqb.
  rewrite bool_decide_eq_false_2 by tauto. apply IH. tauto.
Qed.

Lemma filter_key_values (k : pystr) d :
  NoDup (map fst d) -> keyed d ->
  filter (fun p : pystr * pystr => p.1 = k) (map snd d) =
  match dict_get k d with Some v => [v] | None => [] end.
Proof.
  unfold keyed. induction d as [|[k0 v0] d IH]; simpl; intros Hnd Hk; [reflexivity|].
  apply NoDup_cons in Hnd as [Hn Hnd]. apply Forall_cons in Hk as [H0 Hk]. simpl in H0.
  rewrite filter_cons. unfold str_eqb. rewrite H0.
  destruct (decide (k0 = k)) as [->|Hne].
  - rewrite bool_decide_eq_true_2 by reflexivity.
    rewrite IH, dict_get_notin by assumption. reflexivity.
  - rewrite bool_decide_eq_false_2 by congruence. apply IH; assumption.
Qed.

Lemma find_app {A} (f : A -> bool) (l1 l2 : list A) :
  find f (l1 ++ l2) = match find f l1 with Some x => Some x | None => find f l2 end.
Proof. induction l1 as [|a l1 IH]; simpl; [reflexivity|]. destruct (f a); auto. Qed.

Lemma dedup_fold_get (k : pystr) (l : list (pystr * pystr)) acc :
  dict_get k (fold_left (fun acc w => dict_set w.1 w acc) l acc) =
  match find (fun p : pystr * pystr => str_eqb p.1 k) (rev l) with
  | Some w => Some w
  | None => dict_get k acc
  end.
Proof.
  revert acc. induction l as [|w l IH]; intros acc; simpl; [reflexivity|].
  rewrite IH, find_app, dict_get_set. simpl.
  destruct (find _ (rev l)); [reflexivity|].
  rewrite str_eqb_sym. destruct (str_eqb w.1 k); reflexivity.
Qed.

Lemma dedup_fold_wf (l : list (pystr * pystr)) acc :
  NoDup (map fst acc) -> keyed acc ->
  let d := fold_left (fun acc w => dict_set w.1 w acc) l acc in
  NoDup (map fst d) /\ keyed d.
Proof.
  revert acc. induction l as [|w l IH]; intros acc Hnd Hk; simpl; [auto|].
  apply IH; [apply dict_set_nodup | apply dict_set_keyed]; auto.
Qed.

(** C1 (as amended): the question pool of [start_learning_test] keeps,
    for every english key, exactly one pair: the LAST pair with that key
    in [user_words ++ default_words ++ xml_words] (a dict comprehension
    overwrites the value of a repeated key). *)
Theorem dedup_by_english_last_wins (uw dw xw : list (pystr * pystr)) (k : pystr) :
  filter (fun p : pystr * pystr => p.1 = k) (dedup_by_english (uw ++ dw ++ xw)) =
  match find (fun p : pystr * pystr => str_eqb p.1 k) (rev (uw ++ dw ++ xw)) with
  | Some p => [p]
  | None => []
  end.
Proof.
  unfold dedup_by_english.
  destruct (dedup_fold_wf (uw ++ dw ++ xw) []) as [Hnd Hk]; [constructor | constructor |].
  rewrite filter_key_values by assumption.
  rewrite dedup_fold_get. destruct (find _ _); reflexivity.
Qed.

(** C1 as stated (the FIRST pair with a key is kept) fails: a user pair
    ("water", "водичка") and a default pair ("water", "вода"). *)
Lemma dedup_by_english_first_wins_fails :
  ~ (forall (uw dw xw : list (pystr * pystr)) (k : pystr),
       filter (fun p : pystr * pystr => p.1 = k) (dedup_by_english (uw ++ dw ++ xw)) =
       match find (fun p : pystr * pystr => str_eqb p.1 k) (uw ++ dw ++ xw) with
       | Some p => [p]
       | None => []
       end).
Proof.
  intros H.
  specialize (H [(u "water", u "водичка")] [(u "water", u "вода")] [] (u "water")).
  vm_compute in H. congruence.
Qed.

(** ** Quiz sessions (C2, C3, C9) *)

Lemma create_test_session_store db user_id :
  (create_test_session db user_id).2 =
  set_tests db (S (next_test_id db))
    (tests db ++ (if bool_decide (user_id ∈ users db)
                  then [{| t_test_id := next_test_id db; t_user_id := user_id;
                           t_totals := None |}] else [])).
Proof.
  unfold create_test_session. case_bool_decide; [reflexivity|].
  rewrite app_nil_r. reflexivity.
Qed.

(** The session part of [start_learning_test]: a quiz in progress is
    kept; otherwise the session is opened when the insert succeeds, and
    the call answers [None] with the data untouched when it fails. *)
Lemma start_learning_test_shape xml db user_id d r qt :
  let '(res, d', db') := start_learning_test xml db user_id d r qt in
  if test_in_progress d then counters d' = counters d /\ db' = db
  else db' = (create_test_session db user_id).2 /\
       (if bool_decide (user_id ∈ users db) && negb (Nat.eqb (next_test_id db) 0)
        then counters d' = (Some (next_test_id db), true, 0%nat, 0%nat, 0%nat)
        else res = None /\ d' = d).
Proof.
  unfold start_learning_test.
  destruct (test_in_progress d) eqn:Hp.
  - cbn beta iota zeta.
    destruct (dedup_by_english _) as [|w0 ws]; [auto|].
    destruct (random_choice _ _ _) as [en ru]. destruct qt; auto.
  - unfold create_test_session at 1.
    destruct (bool_decide (user_id ∈ users db)) eqn:Hu.
    + destruct (next_test_id db) as [|m] eqn:Hn.
      * cbn beta iota zeta. cbn [andb negb Nat.eqb].
        unfold create_test_session. rewrite Hu, Hn. auto.
      * cbn beta iota zeta. cbn [andb negb Nat.eqb].
        unfold create_test_session. rewrite Hu, Hn.
        destruct (dedup_by_english _) as [|w0 ws]; [auto|].
        destruct (random_choice _ _ _) as [en ru]. destruct qt; auto.
    + cbn beta iota zeta. cbn [andb negb Nat.eqb].
      unfold create_test_session. rewrite Hu. auto.
Qed.

Lemma get_user_words_set_tests db n t user_id :
  get_user_words (set_tests db n t) user_id = get_user_words db user_id.
Proof. reflexivity. Qed.

Lemma get_default_words_set_tests db n t :
  get_default_words (set_tests db n t) = get_default_words db.
Proof. reflexivity. Qed.

Lemma dedup_by_english_nil : dedup_by_english [] = [].
Proof. reflexivity. Qed.

(** C2 (as amended): when the user's words, the default words and the
    dictionary file give no word, [start_learning_test] answers "no words"
    ([None]); the session store is unchanged only when a quiz was already
    in progress, otherwise [create_test_session] has run first (a new
    session row for a registered user; for an unknown user only the id
    sequence advances). *)
Theorem start_learning_test_no_words xml db user_id d r qt :
  get_user_words db user_id = [] -> get_default_words db = [] ->
  load_words_from_xml xml = [] ->
  let '(res, d', db') := start_learning_test xml db user_id d r qt in
  res = None /\
  db' = (if test_in_progress d then db else (create_test_session db user_id).2).
Proof.
  intros Hu Hd Hx.
  pose proof (start_learning_test_shape xml db user_id d r qt) as Hs.
  unfold start_learning_test in Hs |- *.
  destruct (test_in_progress d) eqn:Hp.
  - cbn beta iota zeta.
    rewrite Hu, Hd, Hx, app_nil_l, app_nil_l, dedup_by_english_nil. auto.
  - clear Hs. pose proof (create_test_session_store db user_id) as Hdb.
    destruct (create_test_session db user_id) as [[[|m]|] db'];
      cbn beta iota zeta; simpl in Hdb; [auto | | auto].
    subst db'. rewrite get_user_words_set_tests, get_default_words_set_tests, Hu, Hd, Hx,
      app_nil_l, app_nil_l, dedup_by_english_nil. auto.
Qed.

Lemma start_learning_test_no_words_witness :
  (get_user_words db_empty 7 = [] /\ get_default_words db_empty = [] /\
   load_words_from_xml [] = []) /\
  let '(res, d', db') := start_learning_test [] db_empty 7 empty_data 0 en_to_ru in
  res = None /\ db' = (create_test_session db_empty 7).2.
Proof.
  split; [vm_compute; auto |].
  exact (start_learning_test_no_words [] db_empty 7 empty_data 0 en_to_ru
           eq_refl eq_refl eq_refl).
Defined.

(** C2 as stated (no session is created) fails: with every source empty
    and no quiz in progress, the store gains a session row. *)
Lemma start_learning_test_no_words_creates_session :
  ~ (forall xml db user_id d r qt,
       get_user_words db user_id = [] -> get_default_words db = [] ->
       load_words_from_xml xml = [] ->
       let '(res, d', db') := start_learning_test xml db user_id d r qt in
       res = None /\ db' = db).
Proof.
  intros H. specialize (H [] db_empty 7 empty_data 0%nat en_to_ru eq_refl eq_refl eq_refl).
  vm_compute in H. destruct H as [_ H]. discriminate H.
Qed.

Lemma handle_test_response_shape xml db user_id ua ca d ok :
  let '(b, d', db') := handle_test_response xml db user_id ua ca d ok in
  match test_id d with
  | None | Some O => d' = d /\ db' = db
  | Some n =>
      test_id d' = test_id d /\ test_in_progress d' = test_in_progress d /\
      questions_answered d' = S (questions_answered d) /\
      (correct_answers d' + incorrect_answers d' =
         S (correct_answers d + incorrect_answers d))%nat /\
      tests db' = tests db /\ next_test_id db' = next_test_id db /\
      exists rows, test_results db' = test_results db ++ rows /\
        Forall (fun r => r_test_id r = n) rows /\
        length rows = (if ok then 1 else 0)%nat
  end.
Proof.
  unfold handle_test_response.
  destruct (test_id d) as [[|n]|] eqn:Ht; [auto | | auto].
  destruct (check_answer _ _ _ _ _ _ _) as [ic pt].
  cbn beta iota zeta. unfold save_test_results. cbn beta iota zeta.
  simpl (test_id _). simpl (test_in_progress _). simpl (questions_answered _).
  simpl (correct_answers _). simpl (incorrect_answers _).
  unfold add_test_result.
  repeat split; [exact Ht | lia | destruct ic; lia | destruct ok; reflexivity
                | destruct ok; reflexivity |].
  destruct ok.
  - eexists. split; [reflexivity|]. split; [repeat constructor | reflexivity].
  - exists []. rewrite app_nil_r. split; [reflexivity|]. split; [constructor | reflexivity].
Qed.

Lemma quiz_step_balanced xml user_id s ev :
  balanced s.1 -> balanced (quiz_step xml user_id s ev).1.
Proof.
  destruct s as [d db]. unfold balanced. simpl. intros Hb.
  destruct ev as [r qt | raw ok]; simpl.
  - pose proof (start_learning_test_shape xml db user_id d r qt) as Hs.
    destruct (start_learning_test xml db user_id d r qt) as [[res d'] db'].
    simpl. unfold counters in Hs.
    destruct (test_in_progress d); [destruct Hs as [Hc _]; injection Hc; lia|].
    destruct Hs as [_ Hs]. destruct (_ && _);
      [injection Hs; lia | destruct Hs as [_ ->]; exact Hb].
  - pose proof (handle_test_response_shape xml db user_id raw (test_correct_answer d) d ok)
      as Hs.
    destruct (handle_test_response _ _ _ _ _ _ _) as [[b d'] db'].
    simpl. destruct (test_id d) as [[|n]|];
      [destruct Hs as [-> _]; exact Hb | | destruct Hs as [-> _]; exact Hb].
    destruct Hs as (_ & _ & Hq & Hci & _). lia.
Qed.

Lemma run_quiz_balanced xml user_id evs s :
  balanced s.1 -> balanced (run_quiz xml user_id s evs).1.
Proof.
  unfold run_quiz. revert s.
  induction evs as [|ev evs IH]; intros s Hb; simpl; [exact Hb|].
  apply IH, quiz_step_balanced, Hb.
Qed.

(** C9: after every event of a quiz (each answer in particular) the FSM
    counters satisfy questions_answered = correct_answers +
    incorrect_answers. *)
Theorem quiz_counters_balanced xml user_id db evs :
  let '(d, _) := run_quiz xml user_id (empty_data, db) evs in
  questions_answered d = (correct_answers d + incorrect_answers d)%nat.
Proof.
  pose proof (run_quiz_balanced xml user_id evs (empty_data, db) eq_refl) as H.
  destruct (run_quiz xml user_id (empty_data, db) evs) as [d db']. exact H.
Qed.

Lemma count_results_app db db' n rows :
  test_results db' = test_results db ++ rows -> Forall (fun r => r_test_id r = n) rows ->
  count_results db' n = (count_results db n + length rows)%nat.
Proof.
  unfold count_results. intros -> Hr. rewrite filter_app, length_app. f_equal.
  induction Hr as [|r rows Hr _ IH]; [reflexivity|].
  rewrite filter_cons. rewrite decide_True by exact Hr. simpl. congruence.
Qed.

Lemma quiz_step_session xml user_id n T s ev :
  n <> 0%nat -> session_inv n T s ->
  match ev with AnswerGiven _ ok => ok = true | NextQuestion _ _ => True end ->
  session_inv n T (quiz_step xml user_id s ev).
Proof.
  destruct s as [d db]. unfold session_inv, balanced. simpl.
  intros Hn (Ht & Hp & HT & Hb & Hc) Hev.
  destruct ev as [r qt | raw ok]; simpl.
  - pose proof (start_learning_test_shape xml db user_id d r qt) as Hs.
    destruct (start_learning_test xml db user_id d r qt) as [[res d'] db'].
    simpl. rewrite Hp in Hs. unfold counters in Hs. destruct Hs as [Hs ->].
    injection Hs as -> -> -> -> ->. auto.
  - subst ok.
    pose proof (handle_test_response_shape xml db user_id raw (test_correct_answer d) d true)
      as Hs.
    destruct (handle_test_response _ _ _ _ _ _ _) as [[b d'] db'].
    simpl. rewrite Ht in Hs. destruct n as [|m]; [congruence|].
    destruct Hs as (Ht' & Hp' & Hq & Hci & HT' & _ & rows & Hrows & Hall & Hlen).
    rewrite (count_results_app db db' (S m) rows Hrows Hall), Hlen.
    repeat split; congruence || lia.
Qed.

Lemma run_quiz_session xml user_id n T evs s :
  n <> 0%nat -> answers_persisted evs = true -> session_inv n T s ->
  session_inv n T (run_quiz xml user_id s evs).
Proof.
  unfold run_quiz. revert s.
  induction evs as [|ev evs IH]; intros s Hn Hok Hs; simpl; [exact Hs|].
  simpl in Hok. apply andb_prop in Hok as [Hev Hok].
  apply IH; [exact Hn | exact Hok |].
  apply quiz_step_session; [exact Hn | exact Hs |]. destruct ev; [exact I | exact Hev].
Qed.

Lemma count_results_fresh db :
  db_wf db -> count_results db (next_test_id db) = 0%nat.
Proof.
  intros (_ & _ & Hr & _). unfold count_results.
  induction Hr as [|r rs Hr _ IH]; [reflexivity|].
  rewrite filter_cons, decide_False by lia. exact IH.
Qed.

Lemma find_test_fresh (T : list test_row) (row : test_row) n :
  Forall (fun t => t_test_id t < n)%nat T -> t_test_id row = n ->
  find (fun t => Nat.eqb (t_test_id t) n) (T ++ [row]) = Some row.
Proof.
  intros HT Hr. induction HT as [|t T Ht _ IH]; simpl.
  - rewrite Hr, Nat.eqb_refl. reflexivity.
  - rewrite (proj2 (Nat.eqb_neq _ _)) by lia. exact IH.
Qed.

Lemma find_map_same_id (f : test_row -> test_row) (T : list test_row) n :
  (forall t, t_test_id (f t) = t_test_id t) ->
  find (fun t => Nat.eqb (t_test_id t) n) (map f T) =
  option_map f (find (fun t => Nat.eqb (t_test_id t) n) T).
Proof.
  intros Hf. induction T as [|t T IH]; simpl; [reflexivity|].
  rewrite Hf. destruct (Nat.eqb (t_test_id t) n); [reflexivity | exact IH].
Qed.

Lemma end_test_and_show_results_some ok db d n :
  test_id d = Some n -> n <> 0%nat ->
  end_test_and_show_results ok db d =
  (empty_data, update_test_session ok db n (questions_answered d)
                 (correct_answers d) (incorrect_answers d)).
Proof.
  intros Ht Hn. unfold end_test_and_show_results. rewrite Ht.
  destruct n; [congruence | reflexivity].
Qed.

(** C3 (as amended): for a registered user, when every INSERT of a
    question result and the final UPDATE succeed, the finalized session
    row stores totals whose correct + incorrect equals the number of
    result rows of the session. *)
Theorem quiz_session_totals_match_results xml db user_id r qt evs :
  db_wf db -> user_id ∈ users db -> answers_persisted evs = true ->
  let '(_, db') := quiz_session xml db user_id r qt evs true in
  exists q c i,
    find_test db' (next_test_id db) =
      Some {| t_test_id := next_test_id db; t_user_id := user_id;
              t_totals := Some (q, c, i) |} /\
    q = (c + i)%nat /\ (c + i = count_results db' (next_test_id db))%nat.
Proof.
  intros Hwf Hu Hok. set (n := next_test_id db).
  assert (Hn : n <> 0%nat) by (destruct Hwf; unfold n; lia).
  set (row := {| t_test_id := n; t_user_id := user_id; t_totals := None |}).
  unfold quiz_session.
  pose proof (start_learning_test_shape xml db user_id empty_data r qt) as Hs.
  destruct (start_learning_test xml db user_id empty_data r qt) as [[res d1] db1].
  simpl in Hs. destruct Hs as [Hdb1 Hc1]. fold n in Hc1, Hdb1.
  rewrite (bool_decide_eq_true_2 _ Hu), (proj2 (Nat.eqb_neq _ _) Hn) in Hc1.
  unfold counters in Hc1. injection Hc1 as Ht1 Hp1 Hq1 Hcc1 Hi1.
  rewrite create_test_session_store, (bool_decide_eq_true_2 _ Hu) in Hdb1.
  assert (Hinv : session_inv n (tests db ++ [row]) (d1, db1)).
  { unfold session_inv, balanced. simpl. rewrite Hdb1. simpl.
    rewrite Ht1, Hp1, Hq1, Hcc1, Hi1.
    repeat split. symmetry. apply (count_results_fresh db Hwf). }
  pose proof (run_quiz_session xml user_id n _ evs (d1, db1) Hn Hok Hinv) as Hrun.
  destruct (run_quiz xml user_id (d1, db1) evs) as [d2 db2].
  destruct Hrun as (Ht2 & _ & HT2 & Hb2 & Hc2). simpl in *.
  rewrite (end_test_and_show_results_some true db2 d2 n Ht2 Hn).
  exists (questions_answered d2), (correct_answers d2), (incorrect_answers d2).
  unfold find_test, update_test_session. simpl. rewrite HT2.
  rewrite find_map_same_id by (intros t; destruct (Nat.eqb _ _); reflexivity).
  destruct Hwf as (_ & Hts & _).
  rewrite (find_test_fresh (tests db) row n Hts eq_refl). simpl.
  rewrite Nat.eqb_refl. repeat split; [exact Hb2 | exact Hc2].
Qed.

Lemma quiz_session_totals_match_results_witness :
  (db_wf db_empty /\ 7 ∈ users db_empty /\
   answers_persisted [AnswerGiven (u "cat") true] = true) /\
  let '(_, db') := quiz_session [] db_empty 7 0 en_to_ru [AnswerGiven (u "cat") true] true in
  exists q c i,
    find_test db' (next_test_id db_empty) =
      Some {| t_test_id := next_test_id db_empty; t_user_id := 7;
              t_totals := Some (q, c, i) |} /\
    q = (c + i)%nat /\ (c + i = count_results db' (next_test_id db_empty))%nat.
Proof.
  assert (Hwf : db_wf db_empty) by (split; [simpl; lia | repeat split; constructor]).
  assert (Hu : 7 ∈ users db_empty) by (simpl; left).
  split; [split; [exact Hwf | split; [exact Hu | reflexivity]] |].
  exact (quiz_session_totals_match_results [] db_empty 7 0 en_to_ru
           [AnswerGiven (u "cat") true] Hwf Hu eq_refl).
Defined.

(** C3 as stated fails: a failed (logged and swallowed) INSERT of a result
    still counts the answer, so the stored totals exceed the rows. *)
Lemma quiz_session_unpersisted_answer :
  ~ (forall xml db user_id r qt evs update_ok, db_wf db ->
       let '(_, db') := quiz_session xml db user_id r qt evs update_ok in
       forall t q c i, find_test db' (next_test_id db) = Some t ->
       t_totals t = Some (q, c, i) ->
       (c + i = count_results db' (next_test_id db))%nat).
Proof.
  intros H.
  assert (Hwf : db_wf db_empty) by (split; [simpl; lia | repeat split; constructor]).
  specialize (H [] db_empty 7 0%nat en_to_ru [AnswerGiven (u "cat") false] true Hwf).
  vm_compute in H. specialize (H _ _ _ _ eq_refl eq_refl). discriminate H.
Qed.

(** ** The results summary (C10) *)

(** C10: computing the percentage of [_format_results_message] never
    divides by zero: it is 0 when no question was answered, and
    round((correct / answered) * 100) otherwise. *)
Theorem results_percentage_no_zero_division (float : Type) (int_to_float : nat -> float)
  (fdiv fmul : float -> float -> float) (fround : float -> Z) (q c : nat) :
  (q = 0%nat /\ results_percentage float int_to_float fdiv fmul fround q c = inr 0) \/
  ((0 < q)%nat /\
   results_percentage float int_to_float fdiv fmul fround q c =
     inr (fround (fmul (fdiv (int_to_float c) (int_to_float q)) (int_to_float 100%nat)))).
Proof.
  unfold results_percentage, py_truediv. destruct q as [|q]; [left; auto | right].
  simpl. split; [lia | reflexivity].
Qed.

(** ** The dictionary (C6) *)


Lemma load_dictionary_untouched (post : list xml_entry) (m : gmap pystr pystr) (k : pystr) :
  (forall x, In x post -> lower (strip x.1) <> k /\ lower (strip x.2) <> k) ->
  fold_left load_entry post m !! k = m !! k.
Proof.
  revert m. induction post as [|x post IH]; intros m Hp; simpl; [reflexivity|].
  rewrite IH by (intros y Hy; apply Hp; right; exact Hy).
  destruct (Hp x (or_introl eq_refl)) as [H1 H2].
  unfold load_entry. rewrite !lookup_insert_ne by congruence. reflexivity.
Qed.

(** C6 (as amended): for a dictionary entry (E, R) whose trimmed,
    lowercased words occur in no later entry, looking up any form of R
    that trims and lowercases to it returns E (trimmed, lowercased), and
    the same for E and R. *)
Theorem translate_word_symmetric (pre post : list xml_entry) (E R w : pystr) :
  (forall x, In x post ->
     lower (strip x.1) <> lower (strip E) /\ lower (strip x.1) <> lower (strip R) /\
     lower (strip x.2) <> lower (strip E) /\ lower (strip x.2) <> lower (strip R)) ->
  let dictionary := load_dictionary (pre ++ (E, R) :: post) in
  (lower (strip w) = lower (strip E) -> translate_word dictionary w = Some (lower (strip R))) /\
  (lower (strip w) = lower (strip R) -> translate_word dictionary w = Some (lower (strip E))).
Proof.
  intros Hp dictionary. unfold dictionary, load_dictionary, translate_word.
  rewrite fold_left_app. simpl.
  split; intros ->.
  - rewrite load_dictionary_untouched by (intros x Hx; destruct (Hp x Hx) as (? & ? & ? & ?); auto).
    unfold load_entry. simpl. apply lookup_insert_eq.
  - rewrite load_dictionary_untouched by (intros x Hx; destruct (Hp x Hx) as (? & ? & ? & ?); auto).
    unfold load_entry. simpl.
    destruct (decide (lower (strip E) = lower (strip R))) as [Heq|Hne].
    + rewrite Heq. rewrite lookup_insert_eq. reflexivity.
    + rewrite lookup_insert_ne by exact Hne. apply lookup_insert_eq.
Qed.

Lemma translate_word_symmetric_witness :
  (forall x, In x [(u "cat", u "кот")] ->
     lower (strip x.1) <> lower (strip (u "Good ")) /\
     lower (strip x.1) <> lower (strip (u "хорошо")) /\
     lower (strip x.2) <> lower (strip (u "Good ")) /\
     lower (strip x.2) <> lower (strip (u "хорошо"))) /\
  let dictionary := load_dictionary ([(u "good", u "добрый")] ++
                      (u "Good ", u "хорошо") :: [(u "cat", u "кот")]) in
  (lower (strip (u "GOOD")) = lower (strip (u "Good ")) ->
     translate_word dictionary (u "GOOD") = Some (lower (strip (u "хорошо")))) /\
  (lower (strip (u "GOOD")) = lower (strip (u "хорошо")) ->
     translate_word dictionary (u "GOOD") = Some (lower (strip (u "Good ")))).
Proof.
  assert (Hp : forall x, In x [(u "cat", u "кот")] ->
     lower (strip x.1) <> lower (strip (u "Good ")) /\
     lower (strip x.1) <> lower (strip (u "хорошо")) /\
     lower (strip x.2) <> lower (strip (u "Good ")) /\
     lower (strip x.2) <> lower (strip (u "хорошо"))).
  { intros x [<-|[]]. vm_compute. repeat split; discriminate. }
  split; [exact Hp|].
  exact (translate_word_symmetric [(u "good", u "добрый")] [(u "cat", u "кот")]
           (u "Good ") (u "хорошо") (u "GOOD") Hp).
Defined.

(** C6 as stated fails: a later entry with the same english word
    overwrites the dict key, so looking up "good" no longer gives the
    first entry's "хорошо". *)
Lemma translate_word_later_entry_overwrites :
  ~ (forall (entries : list xml_entry) (E R : pystr), In (E, R) entries ->
       translate_word (load_dictionary entries) R = Some (lower (strip E)) /\
       translate_word (load_dictionary entries) E = Some (lower (strip R))).
Proof.
  intros H.
  destruct (H [(u "good", u "хорошо"); (u "good", u "добрый")] (u "good") (u "хорошо")
              (or_introl eq_refl)) as [_ H2].
  vm_compute in H2. congruence.
Qed.


Lemma uw_key_is_spec user_id k r :
  uw_key_is user_id k r = true <-> uw_user_id r = user_id /\ uw_english_word r = k.
Proof.
  unfold uw_key_is, str_eqb. rewrite andb_true_iff, !bool_decide_eq_true. reflexivity.
Qed.

Lemma count_key_none (l : list user_word_row) user_id k :
  existsb (uw_key_is user_id k) l = false ->
  length (filter (fun r => uw_key_is user_id k r = true) l) = 0%nat.
Proof.
  induction l as [|r l IH]; simpl; [reflexivity|].
  rewrite orb_false_iff. intros [H1 H2]. rewrite filter_cons, decide_False by congruence.
  exact (IH H2).
Qed.

Lemma count_key_some (l : list user_word_row) user_id k :
  NoDup (map (fun r => (uw_user_id r, uw_english_word r)) l) ->
  existsb (uw_key_is user_id k) l = true ->
  length (filter (fun r => uw_key_is user_id k r = true) l) = 1%nat.
Proof.
  induction l as [|r l IH]; simpl; [discriminate|].
  intros Hnd. apply NoDup_cons in Hnd as [Hn Hnd].
  rewrite orb_true_iff, filter_cons. intros [H1|H2].
  - rewrite decide_True by exact H1. simpl. f_equal.
    destruct (existsb (uw_key_is user_id k) l) eqn:E; [|apply count_key_none, E].
    exfalso. apply existsb_exists in E as [r' [Hr' Hk']].
    apply Hn. apply uw_key_is_spec in H1 as [Ha Hb]. apply uw_key_is_spec in Hk' as [Hc Hd].
    rewrite Ha, Hb, <- Hc, <- Hd. apply list_elem_of_In.
    apply (in_map (fun r => (uw_user_id r, uw_english_word r))), Hr'.
  - destruct (decide (uw_key_is user_id k r = true)) as [H1|H1].
    + exfalso. apply existsb_exists in H2 as [r' [Hr' Hk']].
      apply Hn. apply uw_key_is_spec in H1 as [Ha Hb]. apply uw_key_is_spec in Hk' as [Hc Hd].
      rewrite Ha, Hb, <- Hc, <- Hd. apply list_elem_of_In.
      apply (in_map (fun r => (uw_user_id r, uw_english_word r))), Hr'.
    + exact (IH Hnd H2).
Qed.

(** ** Adding a user word (C5) *)



Lemma varchar_elem (n : nat) (s s' : pystr) (c : Z) :
  varchar n s = Some s' -> c ∈ s' -> c ∈ s.
Proof.
  unfold varchar. destruct (Nat.leb (length s) n); [intros [= ->]; auto|].
  destruct (forallb _ _); [intros [= <-] H | discriminate].
  rewrite <- (firstn_skipn n s). apply elem_of_app. auto.
Qed.



Lemma elem_of_map_iff {A B} (f : A -> B) (l : list A) (b : B) :
  b ∈ map f l <-> exists a, b = f a /\ a ∈ l.
Proof.
  rewrite list_elem_of_In, in_map_iff. split.
  - intros (a & <- & Ha). exists a. split; [reflexivity | apply list_elem_of_In, Ha].
  - intros (a & -> & Ha). exists a. split; [reflexivity | apply list_elem_of_In, Ha].
Qed.

Lemma dict_part_spec (D : gmap pystr pystr) word a :
  a ∈ (if is_in_dictionary D word then
         match translate_word D word with
         | Some translated =>
             if bool_decide (translated <> []) then
               map (fun t => lower (strip t)) (filter (fun t => not_blank t = true)
                                                 (split_on 44 translated))
             else []
         | None => []
         end
       else []) <->
  exists t alt, translate_word D word = Some t /\
    alt ∈ split_on 44 t /\ not_blank alt = true /\ a = lower (strip alt).
Proof.
  unfold is_in_dictionary, translate_word.
  destruct (D !! lower (strip word)) as [t|] eqn:Et.
  - rewrite bool_decide_eq_true_2 by (eexists; reflexivity).
    destruct (decide (t = [])) as [->|Hne].
    + rewrite bool_decide_eq_false_2 by congruence. split.
      * intros Ha. apply elem_of_nil in Ha as [].
      * intros (t' & alt & [= <-] & Halt & Hnb & _). simpl in Halt.
        apply list_elem_of_singleton in Halt as ->. discriminate Hnb.
    + rewrite bool_decide_eq_true_2 by exact Hne. rewrite elem_of_map_iff. split.
      * intros (alt & -> & Halt). apply list_elem_of_filter in Halt as [Hnb Halt].
        exists t, alt. auto.
      * intros (t' & alt & [= <-] & Halt & Hnb & ->). exists alt.
        split; [reflexivity | apply list_elem_of_filter; auto].
  - simpl. split.
    + intros Ha. apply elem_of_nil in Ha as [].
    + intros (t & alt & Ht & _). discriminate Ht.
Qed.

Lemma db_part_spec db word user_id a :
  a ∈ map lower (filter (fun t => not_blank t = true)
                   (db_get_possible_translations db word user_id)) <->
  exists ru, ((lower word, ru) ∈ default_words db \/
              exists row, row ∈ user_words db /\ uw_user_id row = user_id /\
                uw_english_word row = lower word /\ uw_russian_translation row = ru) /\
    not_blank ru = true /\ a = lower ru.
Proof.
  unfold db_get_possible_translations. rewrite elem_of_map_iff. split.
  - intros (ru & -> & Hru). apply list_elem_of_filter in Hru as [Hnb Hru].
    exists ru. split; [|auto]. apply elem_of_app in Hru as [Hd|Hu].
    + left. apply elem_of_map_iff in Hd as ([en ru'] & -> & Hw).
      apply list_elem_of_filter in Hw as [Hk Hw]. simpl in *. subst en. exact Hw.
    + right. apply elem_of_map_iff in Hu as (row & -> & Hrow).
      apply list_elem_of_filter in Hrow as [Hk Hrow].
      apply uw_key_is_spec in Hk as [Hk1 Hk2]. exists row. auto.
  - intros (ru & Hsrc & Hnb & ->). exists ru. split; [reflexivity|].
    apply list_elem_of_filter. split; [exact Hnb|]. apply elem_of_app.
    destruct Hsrc as [Hd | (row & Hrow & Hk1 & Hk2 & <-)].
    + left. apply elem_of_map_iff. exists (lower word, ru). split; [reflexivity|].
      apply list_elem_of_filter. auto.
    + right. apply elem_of_map_iff. exists row. split; [reflexivity|].
      apply list_elem_of_filter. split; [apply uw_key_is_spec; auto | exact Hrow].
Qed.

(** ** Checking an answer (C4) *)

(** C4 (as amended): for a russian->english question the normalized
    answer is correct iff it equals the lowercased expected word; for an
    english->russian question it is correct iff it is one of the trimmed,
    lowercased non-blank comma-separated alternatives of the dictionary
    translation, or a non-blank translation stored for the lowercased word
    among the default words or the user's own words, lowercased. *)
Theorem check_answer_by_direction (xml : list xml_entry) (db : store) (user_id : Z)
  (raw expected word : pystr) :
  ((check_answer (load_dictionary xml) db (normalize_answer raw) (lower expected)
      ru_to_en word user_id).1 = true <-> normalize_answer raw = lower expected) /\
  ((check_answer (load_dictionary xml) db (normalize_answer raw) (lower expected)
      en_to_ru word user_id).1 = true <->
   accepted_translations xml db word user_id (normalize_answer raw)).
Proof.
  split.
  - simpl. apply str_eqb_spec.
  - simpl. rewrite bool_decide_eq_true. unfold get_possible_translations.
    rewrite elem_of_app, dict_part_spec, db_part_spec. reflexivity.
Qed.

(** C4 as stated fails: a stored blank translation is in the claimed
    set of translations, but [get_possible_translations] drops blank
    entries, so the empty answer is rejected. *)
Lemma check_answer_blank_translation :
  ~ (forall xml db user_id raw expected word,
       (check_answer (load_dictionary xml) db (normalize_answer raw) (lower expected)
          en_to_ru word user_id).1 = true <->
       translations_as_claimed xml db word user_id (normalize_answer raw)).
Proof.
  intros H.
  pose proof (proj2 (H [] db_blank_translation 7 [] [] (u "cat"))) as H2.
  assert (Hc : translations_as_claimed [] db_blank_translation (u "cat") 7 (normalize_answer [])).
  { right. exists []. split; [|reflexivity]. right.
    eexists. split; [apply list_elem_of_singleton; reflexivity|].
    split; [reflexivity|]. split; reflexivity. }
  specialize (H2 Hc). vm_compute in H2. discriminate H2.
Qed.

Lemma lower_normalize_answer (s : pystr) : lower (normalize_answer s) = normalize_answer s.
Proof.
  unfold normalize_answer, dict_get_default.
  destruct (dict_get (lower (strip s)) ALLOWED_TYPOS) as [v|] eqn:E.
  - apply dict_get_in in E.
    assert (Hv : Forall (fun v => lower v = v) (map snd ALLOWED_TYPOS))
      by (repeat constructor).
    exact (proj1 (List.Forall_forall _ _) Hv v E).
  - apply lower_idem.
Qed.

(** ** Answering with the pair's own translation (C8) *)

(** C8 (as amended): for an english->russian question on a lowercase
    word drawn from the user's words or the default words, answering with
    the pair's own translation is marked correct provided that translation
    is not blank and is left unchanged by answer normalization (trimmed,
    lowercase, and not a key of the typo table). *)
Theorem own_translation_accepted (xml : list xml_entry) (db : store) (user_id : Z)
  (en ru : pystr) (d : quiz_data) (ok : bool) (n : nat) :
  ((en, ru) ∈ get_user_words db user_id \/ (en, ru) ∈ get_default_words db) ->
  lower en = en -> not_blank ru = true -> normalize_answer ru = ru ->
  test_id d = Some (S n) -> d_question_type d = en_to_ru -> current_word d = en ->
  (handle_test_response xml db user_id ru ru d ok).1.1 = true.
Proof.
  intros Hsrc Hen Hnb Hnorm Ht Hq Hw.
  pose proof (lower_normalize_answer ru) as Hl. rewrite Hnorm in Hl.
  assert (Hic : (check_answer (load_dictionary xml) db (normalize_answer ru) (lower ru)
                   en_to_ru en user_id).1 = true).
  { simpl. apply bool_decide_eq_true. unfold get_possible_translations.
    apply elem_of_app. right. apply db_part_spec. exists ru.
    split; [| split; [exact Hnb | rewrite Hnorm, Hl; reflexivity]].
    rewrite Hen. destruct Hsrc as [Hu | Hd].
    - right. unfold get_user_words in Hu.
      apply list_elem_of_In, in_rev, list_elem_of_In in Hu.
      apply elem_of_map_iff in Hu as (row & Hrow & Hin).
      apply list_elem_of_filter in Hin as [Huid Hin]. injection Hrow as -> ->.
      exists row. auto.
    - left. unfold get_default_words in Hd.
      apply list_elem_of_In in Hd. apply list_elem_of_In.
      rewrite <- (firstn_skipn 12 (default_words db)). apply in_or_app. left. exact Hd. }
  unfold handle_test_response. rewrite Ht, Hq, Hw.
  destruct (check_answer _ _ _ _ _ _ _) as [ic pt] eqn:Hc. simpl in Hic. subst ic.
  destruct (save_test_results _ _ _ _ _ _ _ _). reflexivity.
Qed.

(** C8: the hypotheses hold and the answer is accepted for the default
    pair ("water", "вода"). *)
Lemma own_translation_accepted_witness :
  (((u "water", u "вода") ∈ get_user_words db_with_default_word 7 \/
    (u "water", u "вода") ∈ get_default_words db_with_default_word) /\
   lower (u "water") = u "water" /\ not_blank (u "вода") = true /\
   normalize_answer (u "вода") = u "вода" /\
   test_id (en_to_ru_question 1 (u "water") (u "вода")) = Some 1%nat /\
   d_question_type (en_to_ru_question 1 (u "water") (u "вода")) = en_to_ru /\
   current_word (en_to_ru_question 1 (u "water") (u "вода")) = u "water") /\
  (handle_test_response [] db_with_default_word 7 (u "вода") (u "вода")
     (en_to_ru_question 1 (u "water") (u "вода")) true).1.1 = true.
Proof.
  assert (Hsrc : (u "water", u "вода") ∈ get_user_words db_with_default_word 7 \/
                 (u "water", u "вода") ∈ get_default_words db_with_default_word).
  { right. apply list_elem_of_In. vm_compute. left. reflexivity. }
  split; [split; [exact Hsrc | vm_compute; repeat split; reflexivity] |].
  apply (own_translation_accepted [] db_with_default_word 7 (u "water") (u "вода")
           (en_to_ru_question 1 (u "water") (u "вода")) true 0 Hsrc);
    vm_compute; reflexivity.
Defined.

(** C8 as stated fails: the user's pair ("hi", "хелло") has a
    translation that is a key of the typo table, so the answer "хелло" is
    normalized to "hello" and rejected. *)
Lemma own_translation_typo_key_rejected :
  ~ (forall xml db user_id en ru d ok n,
       ((en, ru) ∈ get_user_words db user_id \/ (en, ru) ∈ get_default_words db) ->
       test_id d = Some (S n) -> d_question_type d = en_to_ru -> current_word d = en ->
       (handle_test_response xml db user_id ru ru d ok).1.1 = true).
Proof.
  intros H.
  assert (Hsrc : (u "hi", u "хелло") ∈ get_user_words (db_with_user_word (u "hi") (u "хелло")) 7 \/
                 (u "hi", u "хелло") ∈ get_default_words (db_with_user_word (u "hi") (u "хелло"))).
  { left. apply list_elem_of_In. vm_compute. left. reflexivity. }
  specialize (H [] (db_with_user_word (u "hi") (u "хелло")) 7 (u "hi") (u "хелло")
                (en_to_ru_question 1 (u "hi") (u "хелло")) true 0%nat Hsrc
                eq_refl eq_refl eq_refl).
  vm_compute in H. discriminate H.
Qed.



(* ------------------------------------------------------------------ *)
(** ** The bot handlers and the rest of database.py *)






Lemma remove_user_word_result db user_id en :
  user_words_unique db ->
  (remove_user_word db user_id en).1 = existsb (uw_key_is user_id (lower en)) (user_words db).
Proof.
  intros Hnd. unfold remove_user_word. simpl.
  destruct (existsb (uw_key_is user_id (lower en)) (user_words db)) eqn:E.
  - rewrite (count_key_some _ _ _ Hnd E). reflexivity.
  - rewrite (count_key_none _ _ _ E). reflexivity.
Qed.

Lemma filter_rev_comm {A} (P : A -> Prop) `{!forall x, Decision (P x)} (l : list A) :
  filter P (rev l) = rev (filter P l).
Proof.
  induction l as [|x l IH]; simpl; [reflexivity|].
  rewrite filter_app, IH, (filter_cons P x l), (filter_cons P x []).
  destruct (decide (P x)); simpl; [reflexivity | apply app_nil_r].
Qed.

Lemma get_user_words_remove db user_id en user_id' :
  get_user_words (remove_user_word db user_id en).2 user_id' =
  if bool_decide (user_id' = user_id)
  then filter (fun p : pystr * pystr => p.1 <> lower en) (get_user_words db user_id)
  else get_user_words db user_id'.
Proof.
  unfold get_user_words, remove_user_word. simpl.
  case_bool_decide as Hid.
  - subst user_id'. rewrite filter_rev_comm. f_equal.
    induction (user_words db) as [|r l IH]; simpl; [reflexivity|].
    rewrite filter_cons. destruct (uw_key_is user_id (lower en) r) eqn:Ek.
    + rewrite decide_False by discriminate. rewrite IH.
      apply uw_key_is_spec in Ek as [Hu He].
      rewrite (filter_cons _ r l), decide_True by exact Hu. simpl.
      rewrite filter_cons, decide_False by (simpl; tauto). reflexivity.
    + rewrite decide_True by reflexivity. rewrite !filter_cons.
      destruct (decide (uw_user_id r = user_id)) as [Hu|Hu]; simpl; [|exact IH].
      rewrite filter_cons, decide_True; [f_equal; exact IH|].
      simpl. intros He. assert (Hk : uw_key_is user_id (lower en) r = true)
        by (apply uw_key_is_spec; auto). congruence.
  - f_equal. f_equal.
    induction (user_words db) as [|r l IH]; simpl; [reflexivity|].
    rewrite filter_cons. destruct (uw_key_is user_id (lower en) r) eqn:Ek.
    + rewrite decide_False by discriminate. apply uw_key_is_spec in Ek as [Hu _].
      rewrite (filter_cons _ r l), decide_False by congruence. exact IH.
    + rewrite decide_True by reflexivity. rewrite !filter_cons.
      destruct (decide (uw_user_id r = user_id')); simpl; [f_equal|]; exact IH.
Qed.

Lemma existsb_key_get_user_words db user_id k :
  existsb (uw_key_is user_id k) (user_words db) = true <->
  exists ru, (k, ru) ∈ get_user_words db user_id.
Proof.
  unfold get_user_words. rewrite existsb_exists. split.
  - intros [r [Hr Hk]]. apply uw_key_is_spec in Hk as [Hu He].
    exists (uw_russian_translation r). apply list_elem_of_In, in_rev.
    rewrite rev_involutive. apply in_map_iff. exists r. split; [rewrite He; reflexivity|].
    apply list_elem_of_In, list_elem_of_filter. split; [exact Hu | apply list_elem_of_In, Hr].
  - intros [ru Hin]. apply list_elem_of_In in Hin. rewrite <- in_rev in Hin.
    apply in_map_iff in Hin as [r [Hp Hr]]. apply list_elem_of_In, list_elem_of_filter in Hr as [Hu Hr].
    exists r. split; [apply list_elem_of_In, Hr|]. apply uw_key_is_spec. injection Hp as ? ?. auto.
Qed.

(** Removing a word: the result says whether the user had the word, and
    only that user's rows with the lowercased word go away. *)
Theorem remove_user_word_spec (db : store) (user_id : Z) (en : pystr) (user_id' : Z) :
  user_words_unique db ->
  let '(removed, db') := remove_user_word db user_id en in
  (removed = true <-> exists ru, (lower en, ru) ∈ get_user_words db user_id) /\
  get_user_words db' user_id' =
    (if bool_decide (user_id' = user_id)
     then filter (fun p : pystr * pystr => p.1 <> lower en) (get_user_words db user_id)
     else get_user_words db user_id').
Proof.
  intros Hnd. pose proof (remove_user_word_result db user_id en Hnd) as Hr.
  pose proof (get_user_words_remove db user_id en user_id') as Hg.
  destruct (remove_user_word db user_id en) as [removed db'] eqn:E. simpl in Hr, Hg.
  split; [rewrite Hr; apply existsb_key_get_user_words | exact Hg].
Qed.


Lemma get_user_words_elem db user_id en ru :
  (en, ru) ∈ get_user_words db user_id <->
  exists r, r ∈ user_words db /\ uw_user_id r = user_id /\ uw_english_word r = en /\
            uw_russian_translation r = ru.
Proof.
  unfold get_user_words. rewrite list_elem_of_In, <- in_rev, in_map_iff. split.
  - intros [r [Hp Hr]]. apply list_elem_of_In, list_elem_of_filter in Hr as [Hu Hr].
    injection Hp as <- <-. exists r. auto.
  - intros (r & Hr & Hu & He & Hru). exists r. rewrite He, Hru. split; [reflexivity|].
    apply list_elem_of_In, list_elem_of_filter. auto.
Qed.

Lemma split_once_app (sep : Z) (p s : pystr) :
  sep ∉ p -> split_once sep (p ++ sep :: s) = [p; s].
Proof.
  induction p as [|c p IH]; simpl; intros Hp.
  - rewrite Z.eqb_refl. reflexivity.
  - rewrite elem_of_cons in Hp. rewrite (proj2 (Z.eqb_neq c sep)) by (intros ->; tauto).
    rewrite IH by tauto. reflexivity.
Qed.

Lemma is_prefix_app (p s : pystr) : is_prefix p (p ++ s) = true.
Proof. induction p; simpl; [reflexivity|]. rewrite Z.eqb_refl. exact IHp. Qed.

Lemma route_remove_data (st : fsm_state) (en : pystr) :
  route_callback st (u "remove_" ++ en) =
    if bool_decide (en = u "word") then Some H_start_remove_word
    else match st with S_removing_word => Some H_remove_word | _ => None end.
Proof.
  case_bool_decide as He; [subst en; destruct st; vm_compute; reflexivity|].
  assert (Hne : forall w : pystr, w <> [] -> hd 0 w <> 114 -> str_eqb (u "remove_" ++ en) w = false).
  { intros w Hw Hh. apply str_eqb_neq. intros Heq. apply Hh. rewrite <- Heq. reflexivity. }
  unfold route_callback.
  replace (is_prefix (u "word_") (u "remove_" ++ en)) with false by reflexivity.
  replace (is_prefix (u "page_") (u "remove_" ++ en)) with false by reflexivity.
  rewrite (Hne (u "add_word")) by (vm_compute; congruence).
  rewrite (str_eqb_neq (u "remove_" ++ en) (u "remove_word"))
    by (intros Heq; apply He; change (u "remove_word") with (u "remove_" ++ u "word") in Heq;
        exact (app_inv_head _ _ _ Heq)).
  rewrite is_prefix_app. cbn [andb].
  destruct st; [| | reflexivity | | |];
    rewrite !Hne by (vm_compute; congruence); reflexivity.
Qed.

(** The buttons of [start_remove_word]: pressed in the [REMOVING_WORD]
    state that handler sets, the button of a word goes to [remove_word],
    except the button of the word "word", whose data "remove_word" is
    caught first by [start_remove_word] (in every state); in another
    state no handler takes the other buttons.  When [remove_word] runs on
    a button it removes the word the button shows: the removal reports
    success and the word leaves the user's list. *)
Theorem remove_button_removes_word (db : store) (user_id : Z) (b : button) :
  user_words_unique db -> english_lower db ->
  b ∈ remove_buttons db user_id ->
  exists en ru, (en, ru) ∈ get_user_words db user_id /\
  (forall st, route_callback st (b_data b) =
     if bool_decide (en = u "word") then Some H_start_remove_word
     else match st with S_removing_word => Some H_remove_word | _ => None end) /\
  match remove_word db user_id (b_data b) with
  | Some (removed, db') =>
      removed = true /\
      get_user_words db' user_id =
        filter (fun p : pystr * pystr => p.1 <> en) (get_user_words db user_id)
  | None => False
  end.
Proof.
  intros Hnd Hlow Hb. unfold remove_buttons in Hb.
  apply list_elem_of_In, in_map_iff in Hb as [[en ru] [<- Hw]].
  apply list_elem_of_In in Hw. exists en, ru. split; [exact Hw|]. split.
  { intros st. cbn [b_data mk_button]. apply route_remove_data. }
  assert (Hl : lower en = en).
  { apply get_user_words_elem in Hw as (r & Hr & _ & He & _). subst en.
    exact (proj1 (Forall_forall _ _) Hlow r Hr). }
  unfold remove_word. cbn [b_data mk_button fst].
  replace (u "remove_" ++ en) with (u "remove" ++ 95 :: en) by reflexivity.
  rewrite split_once_app by (vm_compute; set_solver). cbn [nth_error].
  pose proof (remove_user_word_result db user_id en Hnd) as Hr.
  pose proof (get_user_words_remove db user_id en user_id) as Hg.
  destruct (remove_user_word db user_id en) as [removed db'] eqn:E. simpl in Hr, Hg.
  rewrite Hl in Hr, Hg. rewrite (bool_decide_eq_true_2 _ eq_refl) in Hg.
  split; [|exact Hg]. rewrite Hr. apply existsb_key_get_user_words. exists ru. exact Hw.
Qed.


(** ** Parsing "word - translation" *)

Lemma lstrip_app (x y : pystr) :
  lstrip (x ++ y) = match lstrip x with [] => lstrip y | _ => lstrip x ++ y end.
Proof.
  induction x as [|c x IH]; simpl; [reflexivity|].
  destruct (is_space c); [exact IH | reflexivity].
Qed.

Lemma lstrip_nil_iff (s : pystr) : lstrip s = [] <-> Forall (fun c => is_space c = true) s.
Proof.
  induction s as [|c s IH]; simpl; [split; auto|].
  rewrite Forall_cons. destruct (is_space c) eqn:E.
  - rewrite IH. tauto.
  - split; [discriminate | intros [H _]; congruence].
Qed.

Lemma rstrip_nil_iff (s : pystr) : rstrip s = [] <-> lstrip s = [].
Proof.
  unfold rstrip. rewrite lstrip_nil_iff.
  split.
  - intros H. apply (f_equal (@rev Z)) in H. rewrite rev_involutive in H. simpl in H.
    apply lstrip_nil_iff in H. apply Forall_rev in H. rewrite rev_involutive in H. exact H.
  - intros H. apply Forall_rev, lstrip_nil_iff in H. rewrite H. reflexivity.
Qed.

Lemma rstrip_cons (c : Z) (s : pystr) :
  rstrip (c :: s) = if bool_decide (rstrip s = []) then rstrip [c] else c :: rstrip s.
Proof.
  unfold rstrip at 1. simpl. rewrite lstrip_app.
  case_bool_decide as H.
  - unfold rstrip in H. apply (f_equal (@rev Z)) in H. rewrite rev_involutive in H.
    simpl in H. rewrite H. reflexivity.
  - unfold rstrip in *. destruct (lstrip (rev s)) as [|a l] eqn:E; [simpl in H; congruence|].
    rewrite rev_app_distr. reflexivity.
Qed.

Lemma lstrip_rstrip (s : pystr) : lstrip (rstrip s) = rstrip (lstrip s).
Proof.
  induction s as [|c s IH]; [reflexivity|].
  rewrite (rstrip_cons c s). simpl (lstrip (c :: s)).
  destruct (is_space c) eqn:Ec.
  - case_bool_decide as H.
    + unfold rstrip at 1. simpl. rewrite Ec. simpl.
      apply rstrip_nil_iff in H. rewrite H. reflexivity.
    + simpl. rewrite Ec. exact IH.
  - rewrite (rstrip_cons c s). case_bool_decide as H.
    + unfold rstrip. simpl. rewrite Ec. simpl. rewrite Ec. reflexivity.
    + simpl. rewrite Ec. reflexivity.
Qed.

Lemma strip_rstrip_lstrip (s : pystr) : strip s = lstrip (rstrip s).
Proof. rewrite lstrip_rstrip. reflexivity. Qed.

Lemma rstrip_idem (s : pystr) : rstrip (rstrip s) = rstrip s.
Proof. unfold rstrip. rewrite rev_involutive, lstrip_idem. reflexivity. Qed.

Lemma strip_rstrip (s : pystr) : strip (rstrip s) = strip s.
Proof. rewrite !strip_rstrip_lstrip, rstrip_idem. reflexivity. Qed.

Lemma strip_lstrip (s : pystr) : strip (lstrip s) = strip s.
Proof. unfold strip. rewrite lstrip_idem. reflexivity. Qed.

Lemma lstrip_app_nonspace (x y : pystr) (c : Z) :
  is_space c = false -> lstrip (x ++ c :: y) = lstrip x ++ c :: y.
Proof.
  intros Hc. rewrite lstrip_app. simpl. rewrite Hc.
  destruct (lstrip x); reflexivity.
Qed.

Lemma strip_around (x y : pystr) (c : Z) :
  is_space c = false -> strip (x ++ c :: y) = lstrip x ++ c :: rstrip y.
Proof.
  intros Hc. unfold strip. rewrite lstrip_app_nonspace by exact Hc.
  rewrite rev_app_distr. simpl. rewrite <- app_assoc. simpl.
  rewrite lstrip_app_nonspace by exact Hc. rewrite rev_app_distr. simpl.
  rewrite rev_involutive, <- app_assoc. reflexivity.
Qed.

Lemma elem_of_lstrip (c : Z) (s : pystr) : c ∈ lstrip s -> c ∈ s.
Proof.
  destruct (lstrip_split s) as [p Hp]. intros H. rewrite Hp. apply elem_of_app. auto.
Qed.

Lemma elem_of_strip (c : Z) (s : pystr) : c ∈ strip s -> c ∈ s.
Proof.
  unfold strip. intros H. apply elem_of_lstrip.
  apply list_elem_of_In, in_rev, list_elem_of_In, elem_of_lstrip in H.
  apply list_elem_of_In, in_rev, list_elem_of_In in H. exact H.
Qed.

Lemma elem_of_rstrip (c : Z) (s : pystr) : c ∈ rstrip s -> c ∈ s.
Proof.
  unfold rstrip. intros H.
  apply list_elem_of_In, in_rev, list_elem_of_In, elem_of_lstrip in H.
  apply list_elem_of_In, in_rev, list_elem_of_In in H. exact H.
Qed.

Lemma lower_cp_hyphen (c : Z) : lower_cp c = 45 -> c = 45.
Proof. destruct (lower_cp_cases c) as [[-> _]|[[Hr ->]|[Hr ->]]]; lia. Qed.

Lemma hyphen_not_in_lower (s : pystr) : 45 ∉ s -> 45 ∉ lower s.
Proof.
  intros Hs H. unfold lower in H. apply list_elem_of_In, in_map_iff in H as [c [Hc Hin]].
  apply lower_cp_hyphen in Hc. subst c. apply Hs, list_elem_of_In, Hin.
Qed.

Lemma elem_split_first (sep : Z) (t : pystr) :
  sep ∈ t -> exists p s, t = p ++ sep :: s /\ sep ∉ p.
Proof.
  induction t as [|c t IH]; [rewrite elem_of_nil; tauto|].
  rewrite elem_of_cons. intros H.
  destruct (decide (c = sep)) as [->|Hc].
  - exists [], t. split; [reflexivity | apply not_elem_of_nil].
  - destruct H as [->|H]; [congruence|].
    destruct (IH H) as (p & s & -> & Hp). exists (c :: p), s.
    split; [reflexivity|]. rewrite elem_of_cons. intros [->|H']; [congruence | tauto].
Qed.

Lemma hyphen_in_strip (t : pystr) : 45 ∈ strip t <-> 45 ∈ t.
Proof.
  split; [apply elem_of_strip|]. intros H.
  destruct (elem_split_first 45 t H) as (p & s & -> & _).
  rewrite strip_around by reflexivity. apply elem_of_app. right. apply elem_of_cons. auto.
Qed.

Lemma back_text_no_hyphen : 45 ∉ BACK_TEXT.
Proof. vm_compute. set_solver. Qed.

(** A message "english - russian" whose english part holds no hyphen
    adds the pair (english, russian), each trimmed: the text is split at
    its first hyphen. *)
Theorem process_add_word_parses (db : store) (user_id : Z) (en ru : pystr) :
  45 ∉ en ->
  process_add_word db user_id (Some (en ++ u "-" ++ ru)) =
  let '(ok, db') := add_user_word db user_id (strip en) (strip ru) in
  (if ok then WordAdded (strip en) (strip ru) else WordExists (strip en), db').
Proof.
  intros Hen. unfold process_add_word. cbv iota. change (u "-" ++ ru) with (45 :: ru).
  rewrite strip_around by reflexivity.
  assert (Hin : 45 ∈ lstrip en ++ 45 :: rstrip ru)
    by (apply elem_of_app; right; apply elem_of_cons; auto).
  replace (str_eqb (lstrip en ++ 45 :: rstrip ru) BACK_TEXT) with false.
  2:{ symmetry. unfold str_eqb. apply bool_decide_eq_false_2. intros Heq.
      apply back_text_no_hyphen. rewrite <- Heq. exact Hin. }
  rewrite (bool_decide_eq_true_2 _ Hin). cbn [negb].
  rewrite split_once_app by (intros H; apply Hen, elem_of_lstrip, H).
  cbn [length Nat.ltb Nat.leb map]. rewrite strip_lstrip, strip_rstrip.
  reflexivity.
Qed.

(** [process_add_word] never stores an english word that contains a
    hyphen. *)
Theorem process_add_word_no_hyphen (db : store) (user_id : Z) (text : option pystr) :
  let '(_, db') := process_add_word db user_id text in
  forall r, r ∈ user_words db' -> r ∉ user_words db -> 45 ∉ uw_english_word r.
Proof.
  unfold process_add_word.
  destruct text as [text|]; [|intros r H1 H2; contradiction].
  destruct (str_eqb (strip text) BACK_TEXT); [intros r H1 H2; contradiction|].
  destruct (bool_decide (45 ∈ strip text)) eqn:Eh; cbn [negb]; [|intros r H1 H2; contradiction].
  apply bool_decide_eq_true in Eh.
  destruct (elem_split_first 45 _ Eh) as (p & s & Ht & Hp). rewrite Ht.
  rewrite split_once_app by exact Hp. cbn [length Nat.ltb Nat.leb map].
  unfold add_user_word.
  destruct (varchar 255 (lower (strip p))) as [en|] eqn:Ev; [|intros r H1 H2; contradiction].
  destruct (varchar 255 (lower (strip s))) as [ru|]; [|intros r H1 H2; contradiction].
  destruct (negb (bool_decide (user_id ∈ users db))); [intros r H1 H2; contradiction|].
  destruct (existsb _ _); [intros r H1 H2; contradiction|].
  simpl. intros r H1 H2. apply elem_of_app in H1 as [H1|H1]; [contradiction|].
  apply list_elem_of_singleton in H1. subst r. simpl.
  intros H. apply (varchar_elem _ _ _ _ Ev) in H. revert H.
  apply hyphen_not_in_lower. intros H. apply Hp, elem_of_strip, H.
Qed.

(** A message without text gets the error answer, and only such a
    message does; for a text message the format hint is sent exactly when
    it holds no hyphen (and is not the back button): the [len(parts) < 2]
    test and the unpacking never fail.  Cancelling, the hint and the
    error answer leave the store unchanged. *)
Theorem process_add_word_format_hint (db : store) (user_id : Z) (message_text : option pystr) :
  let '(outcome, db') := process_add_word db user_id message_text in
  (outcome = AddError <-> message_text = None) /\
  (forall text, message_text = Some text ->
     outcome = AddFormatHint <-> ((45 ∉ text) /\ strip text <> BACK_TEXT)) /\
  (outcome = AddFormatHint \/ outcome = AddCancelled \/ outcome = AddError -> db' = db).
Proof.
  unfold process_add_word.
  destruct message_text as [text|].
  2:{ split; [tauto|]. split; [intros t Ht; discriminate Ht | auto]. }
  assert (Hs : forall t, Some text = Some t -> t = text) by congruence.
  destruct (str_eqb (strip text) BACK_TEXT) eqn:Eb.
  - apply str_eqb_spec in Eb. split; [split; discriminate|]. split; [|auto].
    intros t Ht. apply Hs in Ht. subst t. split; [discriminate | tauto].
  - assert (Hb : strip text <> BACK_TEXT) by (intros H; apply str_eqb_spec in H; congruence).
    destruct (bool_decide (45 ∈ strip text)) eqn:Eh; cbn [negb].
    + apply bool_decide_eq_true in Eh.
      destruct (elem_split_first 45 _ Eh) as (p & s & Ht & Hp). rewrite Ht.
      rewrite split_once_app by exact Hp. cbn [length Nat.ltb Nat.leb map].
      pose proof (proj1 (hyphen_in_strip text) Eh) as Eh'.
      destruct (add_user_word db user_id (strip p) (strip s)) as [[|] db'];
        (split; [split; discriminate|]; split;
         [intros t Ht'; apply Hs in Ht'; subst t; split; [discriminate | tauto]
         | intros [H|[H|H]]; discriminate]).
    + apply bool_decide_eq_false in Eh. rewrite hyphen_in_strip in Eh.
      split; [split; discriminate|]. split; [|auto].
      intros t Ht. apply Hs in Ht. subst t. tauto.
Qed.

Lemma word_row_slice (pw : list (pystr * pystr)) (i : nat) :
  word_row pw i = map (fun w => word_button w.1) (firstn 2 (skipn i pw)).
Proof.
  revert i. induction pw as [|a pw IH]; intros i.
  - unfold word_row. destruct i; reflexivity.
  - destruct i as [|i].
    + destruct pw as [|b pw]; reflexivity.
    + change (word_row (a :: pw) (S i)) with (word_row pw i). apply IH.
Qed.

Lemma firstn_add_split {A} (a b : nat) (l : list A) :
  firstn (a + b) l = firstn a l ++ firstn b (skipn a l).
Proof.
  revert l. induction a as [|a IH]; intros l; [reflexivity|].
  destruct l as [|x l]; simpl; [destruct b; reflexivity|]. rewrite IH. reflexivity.
Qed.

Lemma filter_all_true {A} (P : A -> Prop) `{!forall x, Decision (P x)} (l : list A) :
  (forall x, x ∈ l -> P x) -> filter P l = l.
Proof.
  induction l as [|x l IH]; intros HP; [reflexivity|].
  rewrite filter_cons, decide_True by (apply HP; left).
  rewrite IH; [reflexivity|]. intros y Hy. apply HP. right. exact Hy.
Qed.

Lemma filter_all_false {A} (P : A -> Prop) `{!forall x, Decision (P x)} (l : list A) :
  (forall x, x ∈ l -> ~ P x) -> filter P l = [].
Proof.
  induction l as [|x l IH]; intros HP; [reflexivity|].
  rewrite filter_cons, decide_False by (apply HP; left).
  apply IH. intros y Hy. apply HP. right. exact Hy.
Qed.

Lemma concat_blocks {A B} (g : A -> B) (b m j : nat) (l : list A) :
  concat (map (fun k => map g (firstn b (skipn (b * k) l))) (seq j m)) =
  map g (firstn (b * m) (skipn (b * j) l)).
Proof.
  revert j. induction m as [|m IH]; intros j.
  - rewrite Nat.mul_0_r. reflexivity.
  - cbn [seq map concat]. rewrite IH.
    replace (b * S m)%nat with (b + b * m)%nat by lia.
    rewrite firstn_add_split, map_app, skipn_skipn.
    replace (b + b * j)%nat with (b * S j)%nat by lia. reflexivity.
Qed.

Lemma word_rows_all (pw : list (pystr * pystr)) :
  concat (map (word_row pw) (range_step2 (length pw))) =
  map (fun w => word_button w.1) pw.
Proof.
  unfold range_step2. rewrite map_map.
  erewrite map_ext by (intros k; apply word_row_slice).
  rewrite (concat_blocks (fun w => word_button w.1) 2 _ 0), Nat.mul_0_r, skipn_O.
  rewrite firstn_all2; [reflexivity|].
  pose proof (Nat.div_mod (length pw + 1) 2 ltac:(lia)).
  pose proof (Nat.mod_upper_bound (length pw + 1) 2 ltac:(lia)). lia.
Qed.

Lemma word_buttons_app kb1 kb2 :
  word_buttons (kb1 ++ kb2) = word_buttons kb1 ++ word_buttons kb2.
Proof. unfold word_buttons. rewrite concat_app, filter_app. reflexivity. Qed.

Lemma word_buttons_rows (pw : list (pystr * pystr)) :
  word_buttons (map (word_row pw) (range_step2 (length pw))) =
  map (fun w => word_button w.1) pw.
Proof.
  unfold word_buttons. rewrite word_rows_all.
  apply filter_all_true. intros x Hx.
  apply list_elem_of_In, in_map_iff in Hx as [w [<- _]]. apply is_prefix_app.
Qed.

Lemma word_buttons_nav (nav : list button) :
  Forall (fun b => is_prefix (u "word_") (b_data b) = false) nav ->
  word_buttons (match nav with [] => [] | _ :: _ => [nav] end) = [].
Proof.
  intros Hn. destruct nav as [|b nav]; [reflexivity|].
  unfold word_buttons. cbn [concat]. rewrite app_nil_r.
  apply filter_all_false. intros x Hx Hc.
  rewrite List.Forall_forall in Hn.
  specialize (Hn x ltac:(apply list_elem_of_In; exact Hx)). cbv beta in Hc. congruence.
Qed.

Lemma py_slice_page {A} (l : list A) (p : nat) :
  py_slice l (Z.of_nat p * 6) (Z.of_nat p * 6 + 6) = firstn 6 (skipn (6 * p) l).
Proof.
  unfold py_slice, slice_index.
  rewrite !(proj2 (Z.ltb_ge _ _)) by lia.
  destruct (Nat.le_gt_cases (length l) (6 * p)) as [Hle|Hlt].
  - rewrite (Z.min_r (Z.of_nat p * 6)), (Z.min_r (Z.of_nat p * 6 + 6)) by lia.
    rewrite Z.sub_diag, (skipn_all2 l (n := (6 * p)%nat)) by lia.
    reflexivity.
  - rewrite (Z.min_l (Z.of_nat p * 6)) by lia.
    replace (Z.to_nat (Z.of_nat p * 6)) with (6 * p)%nat by lia.
    destruct (Z.min_spec (Z.of_nat p * 6 + 6) (Z.of_nat (length l))) as [[_ ->]|[Hm ->]].
    + replace (Z.to_nat (Z.of_nat p * 6 + 6 - Z.of_nat p * 6)) with 6%nat by lia.
      reflexivity.
    + replace (Z.to_nat (Z.of_nat (length l) - Z.of_nat p * 6))
        with (length (skipn (6 * p) l)) by (rewrite length_skipn; lia).
      rewrite firstn_all, firstn_all2; [reflexivity|].
      rewrite length_skipn. lia.
Qed.

Lemma action_row_no_word : word_buttons [action_row] = [].
Proof. vm_compute. reflexivity. Qed.

Lemma create_words_keyboard_word_buttons (db : store) (user_id page : Z) :
  word_buttons (create_words_keyboard db user_id page) =
  map (fun w => word_button w.1)
    (py_slice (get_default_words db ++ get_user_words db user_id) (page * 6) (page * 6 + 6)).
Proof.
  unfold create_words_keyboard. cbv zeta.
  destruct (get_default_words db ++ get_user_words db user_id) as [|w ws].
  - unfold py_slice. rewrite skipn_nil, firstn_nil. vm_compute. reflexivity.
  - rewrite !word_buttons_app, word_buttons_rows, word_buttons_nav, action_row_no_word,
      !app_nil_r; [reflexivity|].
    apply Forall_app; split;
      [destruct (0 <? page) | destruct (_ <? _)]; repeat constructor.
Qed.

Lemma page_word_buttons (db : store) (user_id : Z) (p : nat) :
  word_buttons (create_words_keyboard db user_id (Z.of_nat p)) =
  map (fun w => word_button w.1)
    (firstn 6 (skipn (6 * p) (get_default_words db ++ get_user_words db user_id))).
Proof. rewrite create_words_keyboard_word_buttons, py_slice_page. reflexivity. Qed.

(** Pagination of the word list: page [p] shows the words at positions
    [6p .. 6p+5] of the default words followed by the user's words, and
    pages [0 .. ceil(len/6) - 1] together show every word once, in order. *)
Theorem words_keyboard_pages (db : store) (user_id : Z) :
  let all_words := get_default_words db ++ get_user_words db user_id in
  (forall p : nat, word_buttons (create_words_keyboard db user_id (Z.of_nat p)) =
     map (fun w => word_button w.1) (firstn 6 (skipn (6 * p) all_words))) /\
  concat (map (fun p => word_buttons (create_words_keyboard db user_id (Z.of_nat p)))
            (seq 0 ((length all_words + 5) / 6))) =
  map (fun w => word_button w.1) all_words.
Proof.
  cbv zeta. split; [apply page_word_buttons|].
  erewrite map_ext by (intros p; apply page_word_buttons).
  rewrite (concat_blocks (fun w => word_button w.1) 6 _ 0), Nat.mul_0_r, skipn_O.
  rewrite firstn_all2; [reflexivity|].
  set (n := length _).
  pose proof (Nat.div_mod (n + 5) 6 ltac:(lia)).
  pose proof (Nat.mod_upper_bound (n + 5) 6 ltac:(lia)). lia.
Qed.

Lemma next_not_word_button (page : Z) (en : pystr) : next_page_button page <> word_button en.
Proof. intros H. apply (f_equal (fun b => head (b_data b))) in H. vm_compute in H. discriminate. Qed.

Lemma next_not_back_button (page page' : Z) : next_page_button page <> back_page_button page'.
Proof. intros H. apply (f_equal (fun b => head (b_text b))) in H. vm_compute in H. discriminate. Qed.

Lemma next_not_action (page : Z) : next_page_button page ∉ action_row.
Proof.
  unfold action_row, add_word_button.
  intros H. repeat (apply elem_of_cons in H as [H|H];
    [apply (f_equal (fun b => head (b_data b))) in H; vm_compute in H; discriminate|]).
  apply not_elem_of_nil in H. exact H.
Qed.

Lemma concat_nav_row (nav : list button) :
  concat (match nav with [] => [] | _ :: _ => [nav] end) = nav.
Proof. destruct nav; simpl; [reflexivity|]. rewrite app_nil_r. reflexivity. Qed.

(** The forward button: page [p] of the word keyboard has the "Вперёд"
    button exactly when page [p+1] shows at least one word. *)
Theorem next_page_button_iff (db : store) (user_id : Z) (p : nat) :
  next_page_button (Z.of_nat p) ∈ concat (create_words_keyboard db user_id (Z.of_nat p)) <->
  word_buttons (create_words_keyboard db user_id (Z.of_nat (S p))) <> [].
Proof.
  rewrite page_word_buttons.
  unfold create_words_keyboard. cbv zeta.
  destruct (get_default_words db ++ get_user_words db user_id) as [|w ws] eqn:HW.
  - split; [|simpl; congruence].
    intros H. apply elem_of_cons in H as [H|H].
    + apply (f_equal (fun b => head (b_text b))) in H. vm_compute in H. discriminate.
    + apply not_elem_of_nil in H. contradiction.
  - rewrite !concat_app, concat_nav_row, word_rows_all.
    cbn [concat]. rewrite app_nil_r.
    rewrite !elem_of_app.
    assert (Hsk : firstn 6 (skipn (6 * S p) (w :: ws)) <> [] <->
                  (6 * S p < length (w :: ws))%nat).
    { split.
      - intros Hne. destruct (Nat.lt_ge_cases (6 * S p) (length (w :: ws))) as [|Hge];
          [assumption|]. rewrite skipn_all2 in Hne by exact Hge. contradiction.
      - intros Hlt Hnil. apply (f_equal (@length _)) in Hnil.
        rewrite length_firstn, length_skipn in Hnil. replace (length (@nil xml_entry)) with 0%nat in Hnil by reflexivity. lia. }
    assert (Hmap : forall (l : list (pystr * pystr)),
      map (fun w => word_button w.1) l <> [] <-> l <> []).
    { intros l. destruct l; simpl; split; congruence. }
    rewrite Hmap, Hsk. split.
    + intros [H|[[H|H]|H]].
      * apply list_elem_of_In, in_map_iff in H as [x [Hx _]].
        exfalso. exact (next_not_word_button _ _ (eq_sym Hx)).
      * destruct (0 <? Z.of_nat p); [|exfalso; revert H; apply not_elem_of_nil].
        apply list_elem_of_singleton in H. exfalso. exact (next_not_back_button _ _ H).
      * destruct (Z.of_nat p * 6 + 6 <? Z.of_nat (length (w :: ws))) eqn:Hb;
             [apply Z.ltb_lt in Hb; lia | exfalso; revert H; apply not_elem_of_nil].
      * exfalso. exact (next_not_action _ H).
    + intros Hlt. right. left. right.
      rewrite (proj2 (Z.ltb_lt _ _)) by lia. left.
Qed.

Lemma fetchrow_any_elem {A} (k : nat) (rows : list A) (x : A) :
  fetchrow_any k rows = Some x -> x ∈ rows.
Proof.
  destruct rows as [|r0 rs]; [discriminate|]. intros H.
  assert (Hx : x = nth (k mod length (r0 :: rs)) (r0 :: rs) r0) by (unfold fetchrow_any in H; congruence).
  rewrite Hx. apply list_elem_of_In, nth_In, Nat.mod_upper_bound. simpl. lia.
Qed.

Lemma fetchrow_any_none {A} (k : nat) (rows : list A) :
  fetchrow_any k rows = None <-> rows = [].
Proof. destruct rows; simpl; split; congruence. Qed.

Lemma fetchrow_any_each {A} (rows : list A) (x : A) :
  x ∈ rows -> exists k, fetchrow_any k rows = Some x.
Proof.
  intros Hx. apply list_elem_of_In, In_nth_error in Hx as [i Hi].
  pose proof (nth_error_Some rows i) as Hlt. rewrite Hi in Hlt.
  destruct rows as [|r0 rs]; [destruct i; discriminate|].
  exists i. unfold fetchrow_any. f_equal. rewrite Nat.mod_small by (apply Hlt; discriminate).
  apply nth_error_nth. exact Hi.
Qed.

Lemma fetchrow_any_single {A} (k : nat) (x : A) : fetchrow_any k [x] = Some x.
Proof. unfold fetchrow_any. simpl length. rewrite Nat.mod_1_r. reflexivity. Qed.

Lemma filter_key_absent (k : pystr) (l : list (pystr * pystr)) :
  k ∉ map fst l -> filter (fun w : pystr * pystr => w.1 = k) l = [].
Proof.
  induction l as [|[k0 v0] l IH]; simpl; intros Hn; [reflexivity|].
  rewrite elem_of_cons in Hn. rewrite filter_cons, decide_False by (simpl; intros ->; tauto).
  apply IH. tauto.
Qed.

Lemma filter_key_unique (k v : pystr) (l : list (pystr * pystr)) :
  NoDup (map fst l) -> (k, v) ∈ l -> filter (fun w : pystr * pystr => w.1 = k) l = [(k, v)].
Proof.
  induction l as [|[k0 v0] l IH]; simpl; intros Hnd Hin;
    [apply not_elem_of_nil in Hin; contradiction|].
  apply NoDup_cons in Hnd as [Hn Hnd]. rewrite filter_cons.
  apply elem_of_cons in Hin as [Heq|Hin].
  - injection Heq as -> ->. rewrite decide_True by reflexivity.
    rewrite filter_key_absent by exact Hn. reflexivity.
  - rewrite decide_False; [exact (IH Hnd Hin)|]. simpl. intros ->. apply Hn.
    apply list_elem_of_In, in_map_iff. exists (k, v). split; [reflexivity|].
    apply list_elem_of_In, Hin.
Qed.

Lemma word_data_split (en : pystr) :
  nth_error (split_once 95 (u "word_" ++ en)) 1 = Some en.
Proof.
  replace (u "word_" ++ en) with (u "word" ++ 95 :: en) by reflexivity.
  rewrite split_once_app by (vm_compute; set_solver). reflexivity.
Qed.

(** The translation shown for a word button.  A non-empty default
    translation wins, whatever the user stored ([default_words] has a
    UNIQUE english word, so the [fetchrow] has one row to return).  With
    no default row for the word, the shown translation is the one of a
    row of [user_words] with that word, whichever user it belongs to, and
    [fetchrow] (no [ORDER BY]) may return any such row; with no row at
    all, "not found" is shown. *)
Theorem show_word_translation_rows (db : store) (en : pystr) :
  (forall t k1 k2, NoDup (map fst (default_words db)) -> (lower en, t) ∈ default_words db ->
     t <> [] -> show_word_translation k1 k2 db (u "word_" ++ en) = Some (Some t)) /\
  (Forall (fun w : pystr * pystr => w.1 <> lower en) (default_words db) ->
   (forall k1 k2 t, show_word_translation k1 k2 db (u "word_" ++ en) = Some (Some t) ->
      exists r, r ∈ user_words db /\ uw_english_word r = lower en /\
                uw_russian_translation r = t) /\
   (forall r, r ∈ user_words db -> uw_english_word r = lower en ->
      uw_russian_translation r <> [] ->
      exists k2, forall k1,
        show_word_translation k1 k2 db (u "word_" ++ en) =
          Some (Some (uw_russian_translation r))) /\
   (Forall (fun r => uw_english_word r <> lower en) (user_words db) ->
      forall k1 k2, show_word_translation k1 k2 db (u "word_" ++ en) = Some None)).
Proof.
  assert (Hdef : str_eqb (u "default") (u "default") = true) by reflexivity.
  assert (Husr : str_eqb (u "user") (u "default") = false) by reflexivity.
  split.
  - intros t k1 k2 Hnd Hin Ht.
    unfold show_word_translation. rewrite word_data_split.
    unfold get_word_translation at 1. rewrite Hdef.
    rewrite (filter_key_unique _ _ _ Hnd Hin), fetchrow_any_single.
    cbn [option_map snd]. rewrite !bool_decide_eq_false_2 by exact Ht. reflexivity.
  - intros Hd.
    assert (Hd' : filter (fun w : pystr * pystr => w.1 = lower en) (default_words db) = []).
    { apply filter_key_absent. intros Hin. apply list_elem_of_In, in_map_iff in Hin as [w [Hw Hin]].
      apply list_elem_of_In in Hin. exact (proj1 (Forall_forall _ _) Hd w Hin Hw). }
    assert (Hs : forall k1 k2, show_word_translation k1 k2 db (u "word_" ++ en) =
              Some (match option_map uw_russian_translation
                            (fetchrow_any k2 (filter (fun r => uw_english_word r = lower en)
                                                (user_words db))) with
                    | Some t => if bool_decide (t = []) then None else Some t
                    | None => None
                    end)).
    { intros k1 k2. unfold show_word_translation. rewrite word_data_split.
      unfold get_word_translation. rewrite Hdef, Husr, Hd'. reflexivity. }
    split; [|split].
    + intros k1 k2 t. rewrite Hs.
      destruct (fetchrow_any k2 _) as [r|] eqn:Ef; cbn [option_map]; [|discriminate].
      case_bool_decide; [discriminate|]. intros [= <-].
      apply fetchrow_any_elem, list_elem_of_filter in Ef as [He Hr].
      exists r. auto.
    + intros r Hr He Ht.
      assert (Hin : r ∈ filter (fun r => uw_english_word r = lower en) (user_words db))
        by (apply list_elem_of_filter; auto).
      destruct (fetchrow_any_each _ _ Hin) as [k2 Hk]. exists k2. intros k1.
      rewrite Hs, Hk. cbn [option_map]. rewrite bool_decide_eq_false_2 by exact Ht.
      reflexivity.
    + intros Hu k1 k2. rewrite Hs.
      replace (filter (fun r => uw_english_word r = lower en) (user_words db)) with
        (@nil user_word_row); [reflexivity|].
      symmetry. revert Hu. generalize (user_words db) as U. intros U HU.
      induction HU as [|r U Hr _ IH]; [reflexivity|].
      rewrite filter_cons, decide_False by exact Hr. exact IH.
Qed.

(** /cancel always clears the FSM data.  Outside a quiz it sends nothing
    and leaves the store alone.  In a quiz with answered questions it
    says the progress was saved and writes the session's totals, but it
    says so also when that write fails and nothing was stored; with no
    answered question it writes nothing. *)
Theorem cancel_handler_progress (update_ok : bool) (db : store) (d : quiz_data) :
  let '(msg, d', db') := cancel_handler update_ok db d in
  d' = empty_data /\
  (test_in_progress d = false -> msg = None /\ db' = db) /\
  (test_in_progress d = true -> questions_answered d = 0%nat ->
     msg = Some (u "Тест отменен.") /\ db' = db) /\
  (test_in_progress d = true -> forall tid, test_id d = Some tid -> (0 < tid)%nat ->
     (0 < questions_answered d)%nat ->
     msg = Some (u "Тест отменен. Прогресс сохранен.") /\
     find_test db' tid =
       (if update_ok then
          option_map (fun t => {| t_test_id := t_test_id t; t_user_id := t_user_id t;
                                  t_totals := Some (questions_answered d, correct_answers d,
                                                    incorrect_answers d) |})
            (find_test db tid)
        else find_test db tid) /\
     (update_ok = false -> db' = db)).
Proof.
  unfold cancel_handler.
  destruct (test_in_progress d) eqn:Hp.
  - destruct (test_id d) as [[|n]|] eqn:Ht.
    + split; [reflexivity|]. split; [discriminate|].
      split; [intros _ _; split; reflexivity|].
      intros _ tid Htid Hlt. injection Htid as <-. lia.
    + destruct (Nat.ltb 0 (questions_answered d)) eqn:Hq.
      * apply Nat.ltb_lt in Hq.
        split; [reflexivity|]. split; [discriminate|]. split; [intros _ Hz; lia|].
        intros _ tid Htid _ _. injection Htid as <-. split; [reflexivity|].
        split; [|intros ->; reflexivity].
        unfold update_test_session, find_test.
        destruct update_ok; [|reflexivity]. cbn [tests set_tests].
        rewrite find_map_same_id by (intros t; destruct (Nat.eqb _ _); reflexivity).
        destruct (find _ (tests db)) as [t|] eqn:Ef; [|reflexivity].
        apply find_some in Ef as [_ Ef]. cbn [option_map]. rewrite Ef. reflexivity.
      * apply Nat.ltb_ge in Hq.
        split; [reflexivity|]. split; [discriminate|].
        split; [intros _ _; split; reflexivity|].
        intros _ tid _ _ Hq'. lia.
    + split; [reflexivity|]. split; [discriminate|].
      split; [intros _ _; split; reflexivity|].
      intros _ tid Htid. discriminate.
  - split; [reflexivity|]. split; [intros _; split; reflexivity|].
    split; intros H; discriminate.
Qed.

Lemma history_entries_spec (k : nat) (ts : list test_row) (i : nat) (tot : nat * nat * nat) :
  (i, tot) ∈ history_entries k ts <->
  exists j t, nth_error ts j = Some t /\ t_totals t = Some tot /\ i = (k + j)%nat.
Proof.
  revert k. induction ts as [|t ts IH]; intros k; simpl.
  - split; [intros H; apply not_elem_of_nil in H; contradiction|].
    intros (j & t & Hj & _). destruct j; discriminate.
  - assert (Hs : (exists j t', nth_error ts j = Some t' /\ t_totals t' = Some tot /\
                               i = (S k + j)%nat) <->
                 (exists j t', nth_error (t :: ts) j = Some t' /\ t_totals t' = Some tot /\
                               i = (k + j)%nat /\ j <> 0%nat)).
    { split.
      - intros (j & t' & ?). exists (S j), t'. simpl. intuition lia.
      - intros (j & t' & Hj & Ht & Hi & Hj0). destruct j as [|j]; [contradiction|].
        exists j, t'. simpl in Hj. intuition lia. }
    destruct (t_totals t) as [tot'|] eqn:Ht.
    + rewrite elem_of_cons, IH, Hs. split.
      * intros [Heq|(j & t' & ?)].
        -- injection Heq as -> ->. exists 0%nat, t. simpl. intuition lia.
        -- exists j, t'. intuition.
      * intros (j & t' & Hj & Ht' & Hi). destruct j as [|j].
        -- left. simpl in Hj. injection Hj as <-. rewrite Ht in Ht'. injection Ht' as ->.
           f_equal. lia.
        -- right. exists (S j), t'. intuition lia.
    + rewrite IH, Hs. split.
      * intros (j & t' & ?). exists j, t'. intuition.
      * intros (j & t' & Hj & Ht' & Hi). exists j, t'.
        destruct j as [|j]; [|intuition lia].
        simpl in Hj. injection Hj as <-. congruence.
Qed.

Lemma firstn_nil_iff {A} (n : nat) (l : list A) : (0 < n)%nat -> firstn n l = [] <-> l = [].
Proof. intros Hn. destruct n, l; simpl; split; try congruence; lia. Qed.

Lemma filter_nil_forall {A} (P : A -> Prop) `{!forall x, Decision (P x)} (l : list A) :
  filter P l = [] <-> Forall (fun x => ~ P x) l.
Proof.
  induction l as [|x l IH]; [split; auto|].
  rewrite filter_cons, Forall_cons. destruct (decide (P x)); split.
  - discriminate.
  - intros [? _]. contradiction.
  - intros Hf. split; [assumption|]. apply IH. exact Hf.
  - intros [_ Hf]. apply IH. exact Hf.
Qed.

(** The test history: "no history" exactly when the user has no test
    session; otherwise an entry numbered [i] shows the totals of the
    [i]-th of the (at most ten, newest first) fetched sessions.  Sessions
    whose totals were never written are skipped but keep their number,
    so the numbering can have gaps. *)
Theorem show_test_history_entries (db : store) (user_id : Z) :
  (show_test_history db user_id = NoHistory <->
   Forall (fun t => t_user_id t <> user_id) (tests db)) /\
  (length (get_user_test_history db user_id) <= 10)%nat /\
  forall entries, show_test_history db user_id = History entries ->
    forall i tot, (i, tot) ∈ entries <->
      (1 <= i)%nat /\ exists t, nth_error (get_user_test_history db user_id) (i - 1) = Some t /\
                                t_totals t = Some tot.
Proof.
  split; [|split].
  - unfold show_test_history.
    rewrite <- filter_nil_forall.
    assert (E : get_user_test_history db user_id = [] <->
                filter (fun t => t_user_id t = user_id) (tests db) = []).
    { unfold get_user_test_history, user_tests_newest_first.
      rewrite firstn_nil_iff by lia. split.
      - intros H. apply (f_equal (@rev _)) in H. rewrite rev_involutive in H. exact H.
      - intros ->. reflexivity. }
    rewrite <- E. destruct (get_user_test_history db user_id); split; congruence.
  - unfold get_user_test_history. rewrite length_firstn. lia.
  - intros entries He i tot. unfold show_test_history in He.
    destruct (get_user_test_history db user_id) as [|t0 ts] eqn:Eh; [discriminate|].
    assert (Ee : entries = history_entries 1 (t0 :: ts)) by congruence.
    subst entries. rewrite history_entries_spec. split.
    + intros (j & t & Hj & Ht & ->). split; [lia|]. exists t.
      replace (1 + j - 1)%nat with j by lia. auto.
    + intros (Hi & t & Hj & Ht). exists (i - 1)%nat, t. intuition lia.
Qed.

(** Right after a quiz starts a new session, "last test results" is empty,
    even when the user's earlier sessions have results: the newest
    session is the new one, which has none yet. *)
Theorem last_test_results_after_start (xml : list xml_entry) (db : store) (user_id : Z)
  (d : quiz_data) (r : nat) (qt : question_type) :
  db_wf db -> test_in_progress d = false ->
  let '(_, _, db') := start_learning_test xml db user_id d r qt in
  get_user_last_test_results db' user_id = [].
Proof.
  intros Hwf Hp.
  pose proof (start_learning_test_shape xml db user_id d r qt) as Hs.
  destruct (start_learning_test xml db user_id d r qt) as [[res d'] db'].
  rewrite Hp in Hs. destruct Hs as [-> _].
  pose proof (count_results_fresh db Hwf) as Hc.
  destruct Hwf as (H1 & _ & _ & Hfk).
  rewrite create_test_session_store.
  destruct (decide (user_id ∈ users db)) as [Hu|Hu].
  2:{ rewrite bool_decide_eq_false_2 by exact Hu. rewrite app_nil_r.
      unfold get_user_last_test_results, user_tests_newest_first. cbn [tests set_tests].
      replace (filter (fun t => t_user_id t = user_id) (tests db)) with (@nil test_row);
        [reflexivity|].
      symmetry. revert Hfk. generalize (tests db) as T. intros T HT.
      induction HT as [|t T Ht _ IH]; [reflexivity|].
      rewrite filter_cons, decide_False; [exact IH|]. intros Heq. apply Hu.
      rewrite <- Heq. exact Ht. }
  rewrite bool_decide_eq_true_2 by exact Hu.
  unfold get_user_last_test_results, user_tests_newest_first.
  cbn [tests set_tests snd]. rewrite filter_app.
  rewrite (filter_cons (fun t => t_user_id t = user_id)), decide_True by reflexivity.
  cbn [filter list_filter]. rewrite rev_app_distr. cbn [rev app t_test_id].
  rewrite (proj2 (Nat.eqb_neq _ 0)) by lia.
  unfold get_test_results, count_results in *. cbn [test_results set_tests].
  apply length_zero_iff_nil. exact Hc.
Qed.

Lemma lower_nil_iff (s : pystr) : lower s = [] <-> s = [].
Proof. unfold lower. destruct s; simpl; split; congruence. Qed.

Lemma lower_strip_normal (s : pystr) : lower (strip (lower (strip s))) = lower (strip s).
Proof. rewrite strip_lower_strip. apply lower_idem. Qed.

Lemma load_words_from_xml_elem (entries : list xml_entry) (w : pystr * pystr) :
  w ∈ load_words_from_xml entries <->
  exists e, e ∈ entries /\ w = (lower (strip e.1), lower (strip e.2)) /\ w.1 <> [] /\ w.2 <> [].
Proof.
  unfold load_words_from_xml. rewrite list_elem_of_filter, list_elem_of_In, in_map_iff.
  split.
  - intros [[H1 H2] [e [<- He]]]. exists e. rewrite list_elem_of_In. auto.
  - intros (e & He & -> & H1 & H2). split; [auto|]. exists e.
    rewrite <- list_elem_of_In. auto.
Qed.

(** The words read from the XML dictionary are non-empty, stripped and
    lowercase: normalising them again changes nothing. *)
Theorem load_words_from_xml_normalized (entries : list xml_entry) :
  Forall (fun w : pystr * pystr =>
            w.1 <> [] /\ w.2 <> [] /\ lower (strip w.1) = w.1 /\ lower (strip w.2) = w.2)
    (load_words_from_xml entries).
Proof.
  apply Forall_forall. intros w Hw. apply load_words_from_xml_elem in Hw.
  destruct Hw as (e & _ & -> & H1 & H2). simpl in *.
  rewrite !lower_strip_normal. auto.
Qed.

Lemma load_entry_keeps (m : gmap pystr pystr) (e : xml_entry) (k : pystr) :
  is_Some (m !! k) -> is_Some (load_entry m e !! k).
Proof.
  intros H. unfold load_entry. rewrite !lookup_insert_is_Some'. auto.
Qed.

Lemma fold_load_entry_keeps (es : list xml_entry) (m : gmap pystr pystr) (k : pystr) :
  is_Some (m !! k) -> is_Some (fold_left load_entry es m !! k).
Proof.
  revert m. induction es as [|e es IH]; intros m H; simpl; [exact H|].
  apply IH, load_entry_keeps, H.
Qed.

Lemma fold_load_entry_keys (es : list xml_entry) (m : gmap pystr pystr) (e : xml_entry) :
  e ∈ es ->
  is_Some (fold_left load_entry es m !! lower (strip e.1)) /\
  is_Some (fold_left load_entry es m !! lower (strip e.2)).
Proof.
  revert m. induction es as [|e' es IH]; intros m He.
  - apply not_elem_of_nil in He. contradiction.
  - simpl. apply elem_of_cons in He as [->|He]; [|apply IH, He].
    split; apply fold_load_entry_keeps; unfold load_entry; rewrite !lookup_insert_is_Some'; auto.
Qed.

(** Every word of the XML word list is known to the translator built from
    the same file, in both directions. *)
Theorem xml_words_in_dictionary (entries : list xml_entry) :
  Forall (fun w : pystr * pystr =>
            is_in_dictionary (load_dictionary entries) w.1 = true /\
            is_in_dictionary (load_dictionary entries) w.2 = true)
    (load_words_from_xml entries).
Proof.
  apply Forall_forall. intros w Hw. apply load_words_from_xml_elem in Hw.
  destruct Hw as (e & He & -> & _ & _). simpl.
  unfold is_in_dictionary, load_dictionary. rewrite !lower_strip_normal.
  destruct (fold_load_entry_keys entries ∅ e He) as [H1 H2].
  split; apply bool_decide_eq_true_2; assumption.
Qed.

Lemma translate_input_unrecognised_iff (dictionary : gmap pystr pystr) (message_text : pystr) :
  translate_input dictionary message_text = InDictionaryUnrecognised <->
  translate_word dictionary (strip message_text) = Some [].
Proof.
  unfold translate_input. cbv zeta.
  assert (Hi : is_in_dictionary dictionary (strip message_text) =
               bool_decide (is_Some (translate_word dictionary (strip message_text))))
    by reflexivity.
  rewrite Hi.
  destruct (translate_word dictionary (strip message_text)) as [r|] eqn:E.
  - rewrite (bool_decide_eq_true_2 (is_Some (Some r))) by (eexists; reflexivity).
    destruct (bool_decide (r = [])) eqn:Hr.
    + apply bool_decide_eq_true in Hr. subst r. split; reflexivity.
    + apply bool_decide_eq_false in Hr.
      split; [discriminate|]. intros H. injection H as ->. contradiction.
  - rewrite bool_decide_eq_false_2 by (intros [? ?]; discriminate).
    split; discriminate.
Qed.

(** The "word is in the dictionary but not recognised" answer of
    /translate happens exactly when the dictionary maps the word to an
    empty string. *)
Theorem translate_input_unrecognised (dictionary : gmap pystr pystr) (message_text : pystr) :
  translate_input dictionary message_text = InDictionaryUnrecognised <->
  translate_word dictionary (strip message_text) = Some [].
Proof. apply translate_input_unrecognised_iff. Qed.

Lemma load_entry_values (m : gmap pystr pystr) (e : xml_entry) :
  strip e.1 <> [] -> strip e.2 <> [] ->
  (forall k v, m !! k = Some v -> v <> []) ->
  forall k v, load_entry m e !! k = Some v -> v <> [].
Proof.
  intros H1 H2 Hm k v. unfold load_entry.
  rewrite lookup_insert_Some. intros [[_ <-]|[_ Hk]].
  - rewrite lower_nil_iff. exact H2.
  - revert Hk. rewrite lookup_insert_Some. intros [[_ <-]|[_ Hk]].
    + rewrite lower_nil_iff. exact H1.
    + exact (Hm k v Hk).
Qed.

(** A dictionary file whose texts are all non-blank never makes
    /translate answer "in the dictionary but not recognised". *)
Theorem translate_input_loaded_never_unrecognised (entries : list xml_entry) (message_text : pystr) :
  Forall (fun e : xml_entry => strip e.1 <> [] /\ strip e.2 <> []) entries ->
  translate_input (load_dictionary entries) message_text <> InDictionaryUnrecognised.
Proof.
  intros He. rewrite translate_input_unrecognised_iff. unfold load_dictionary.
  assert (Hv : forall m, (forall k v, m !! k = Some v -> v <> []) ->
                 forall k v, fold_left load_entry entries m !! k = Some v -> v <> []).
  { induction He as [|e es [H1 H2] _ IH]; intros m Hm; simpl; [exact Hm|].
    apply IH. apply load_entry_values; assumption. }
  intros Hs. unfold translate_word in Hs.
  refine (Hv ∅ _ _ _ Hs eq_refl).
  intros k v Hk. rewrite lookup_empty in Hk. discriminate.
Qed.

Lemma leaderboard_get_upsert (lb : leaderboard) (user_id k : Z) (c i : nat) :
  leaderboard_get (leaderboard_upsert lb user_id c i) k =
  if Z.eqb k user_id then
    Some (match leaderboard_get lb user_id with
          | None => (1%nat, c, i)
          | Some (nt, tc, ti) => (S nt, (tc + c)%nat, (ti + i)%nat)
          end)
  else leaderboard_get lb k.
Proof.
  induction lb as [|[k' [[nt tc] ti]] lb IH]; simpl.
  - destruct (Z.eqb_spec user_id k), (Z.eqb_spec k user_id); congruence.
  - destruct (Z.eqb_spec k' user_id) as [->|Hne]; simpl.
    + destruct (Z.eqb_spec user_id k), (Z.eqb_spec k user_id); congruence.
    + rewrite IH. destruct (Z.eqb_spec k' k), (Z.eqb_spec k user_id); congruence.
Qed.

Lemma leaderboard_fold_get (users : list Z) (lb : leaderboard) (user_id k : Z)
  (games : list (nat * nat)) :
  user_id ∈ users ->
  leaderboard_get (fold_left (fun lb g => update_leaderboard users lb user_id g.1 g.2) games lb) k =
  if Z.eqb k user_id then fold_left leaderboard_totals_step games (leaderboard_get lb user_id)
  else leaderboard_get lb k.
Proof.
  intros Hu. revert lb. induction games as [|g games IH]; intros lb; simpl.
  - destruct (Z.eqb_spec k user_id) as [->|]; reflexivity.
  - rewrite IH. unfold update_leaderboard. rewrite bool_decide_eq_true_2 by exact Hu.
    rewrite !leaderboard_get_upsert, Z.eqb_refl.
    destruct (Z.eqb k user_id); reflexivity.
Qed.

Lemma totals_step_fold (games : list (nat * nat)) (nt tc ti : nat) :
  fold_left leaderboard_totals_step games (Some (nt, tc, ti)) =
  Some ((nt + length games)%nat, (tc + list_sum (map fst games))%nat,
        (ti + list_sum (map snd games))%nat).
Proof.
  revert nt tc ti. induction games as [|[c i] games IH]; intros nt tc ti;
    cbn [fold_left length].
  - rewrite !Nat.add_0_r. reflexivity.
  - replace (leaderboard_totals_step (Some (nt, tc, ti)) (c, i))
      with (Some (S nt, (tc + c)%nat, (ti + i)%nat)) by reflexivity.
    change (list_sum (map fst ((c, i) :: games))) with (c + list_sum (map fst games))%nat.
    change (list_sum (map snd ((c, i) :: games))) with (i + list_sum (map snd games))%nat.
    rewrite IH. f_equal. f_equal; [f_equal|]; lia.
Qed.

(** The leaderboard row of a registered user who had none, after
    [update_leaderboard] ran for a list of finished tests: one test per
    call, and the correct and incorrect answers summed; the rows of the
    other users are untouched.  For an unknown user nothing changes. *)
Theorem update_leaderboard_totals (users : list Z) (lb : leaderboard) (user_id : Z)
  (games : list (nat * nat)) :
  let lb' := fold_left (fun lb g => update_leaderboard users lb user_id g.1 g.2) games lb in
  (user_id ∈ users -> leaderboard_get lb user_id = None -> games <> [] ->
   leaderboard_get lb' user_id =
     Some (length games, list_sum (map fst games), list_sum (map snd games))) /\
  (user_id ∈ users -> forall k, k <> user_id -> leaderboard_get lb' k = leaderboard_get lb k) /\
  (user_id ∉ users -> lb' = lb).
Proof.
  cbv zeta. split; [|split].
  - intros Hu Hn Hg. rewrite leaderboard_fold_get, Z.eqb_refl, Hn by exact Hu.
    destruct games as [|[c i] games]; [contradiction|]. cbn [fold_left].
    replace (leaderboard_totals_step None (c, i)) with (Some (1%nat, c, i)) by reflexivity.
    rewrite totals_step_fold. reflexivity.
  - intros Hu k Hk. rewrite leaderboard_fold_get by exact Hu.
    rewrite (proj2 (Z.eqb_neq _ _) Hk). reflexivity.
  - intros Hu. revert lb. induction games as [|g games IH]; intros lb; [reflexivity|].
    simpl. unfold update_leaderboard at 2. rewrite bool_decide_eq_false_2 by exact Hu.
    apply IH.
Qed.

Lemma dict_set_values {V} (k : pystr) (v x : V) (d : list (pystr * V)) :
  x ∈ map snd (dict_set k v d) -> x = v \/ x ∈ map snd d.
Proof.
  induction d as [|[k' v'] d IH]; simpl; intros H.
  - apply list_elem_of_singleton in H. auto.
  - destruct (str_eqb k k'); simpl in H; apply elem_of_cons in H as [H|H].
    + auto.
    + right. apply elem_of_cons. auto.
    + right. apply elem_of_cons. auto.
    + destruct (IH H) as [?|?]; [auto|]. right. apply elem_of_cons. auto.
Qed.

Lemma dedup_fold_values (l : list (pystr * pystr)) acc (x : pystr * pystr) :
  x ∈ map snd (fold_left (fun acc w => dict_set w.1 w acc) l acc) ->
  x ∈ map snd acc \/ x ∈ l.
Proof.
  revert acc. induction l as [|w l IH]; intros acc H; simpl in H; [auto|].
  destruct (IH _ H) as [Hx|Hx].
  - apply dict_set_values in Hx as [->|Hx]; [right; left | auto].
  - right. right. exact Hx.
Qed.

Lemma dedup_by_english_sub (l : list (pystr * pystr)) (x : pystr * pystr) :
  x ∈ dedup_by_english l -> x ∈ l.
Proof.
  unfold dedup_by_english. intros H.
  destruct (dedup_fold_values l [] x H) as [Hx|Hx]; [|exact Hx].
  apply not_elem_of_nil in Hx. contradiction.
Qed.

Lemma random_choice_elem {A} (l : list A) (r : nat) (w0 : A) :
  l <> [] -> random_choice l r w0 ∈ l.
Proof.
  intros Hl. unfold random_choice. apply list_elem_of_In, nth_In.
  apply Nat.mod_upper_bound. destruct l; [contradiction|]. simpl. lia.
Qed.

(** A question of the quiz asks about a pair taken from the user's words,
    the default words or the XML dictionary, and the expected answer is
    the other side of that pair: the russian word for an english->russian
    question, the english word for a russian->english one. *)
Theorem start_learning_test_question_pair (xml : list xml_entry) (db : store) (user_id : Z)
  (d : quiz_data) (r : nat) (qt : question_type) :
  let '(res, d', _) := start_learning_test xml db user_id d r qt in
  forall question answer, res = Some (question, answer) ->
  (current_word d', original_ru_word d') ∈
    get_user_words db user_id ++ get_default_words db ++ load_words_from_xml xml /\
  test_correct_answer d' = answer /\ d_question_type d' = qt /\
  match qt with
  | en_to_ru => question = u "Переведите слово: " ++ current_word d' /\
                answer = original_ru_word d'
  | ru_to_en => question = u "Как будет '" ++ original_ru_word d' ++ u "' по-английски?" /\
                answer = current_word d'
  end.
Proof.
  unfold start_learning_test.
  destruct (test_in_progress d) eqn:Hp.
  - cbn beta iota zeta.
    destruct (dedup_by_english _) as [|w0 ws] eqn:Hd; [discriminate|].
    pose proof (random_choice_elem (w0 :: ws) r w0 ltac:(discriminate)) as Hc.
    destruct (random_choice _ _ _) as [en ru]. rewrite <- Hd in Hc.
    apply dedup_by_english_sub in Hc.
    destruct qt; cbn beta iota zeta; intros q a H; injection H as <- <-;
      cbn [current_word original_ru_word test_correct_answer d_question_type]; auto.
  - pose proof (create_test_session_store db user_id) as Hdb.
    destruct (create_test_session db user_id) as [[[|m]|] db'];
      cbn beta iota zeta; simpl in Hdb; [intros ? ? H; discriminate H | |
                                         intros ? ? H; discriminate H].
    subst db'. rewrite get_user_words_set_tests, get_default_words_set_tests.
    destruct (dedup_by_english _) as [|w0 ws] eqn:Hd; [discriminate|].
    pose proof (random_choice_elem (w0 :: ws) r w0 ltac:(discriminate)) as Hc.
    destruct (random_choice _ _ _) as [en ru]. rewrite <- Hd in Hc.
    apply dedup_by_english_sub in Hc.
    destruct qt; cbn beta iota zeta; intros q a H; injection H as <- <-;
      cbn [current_word original_ru_word test_correct_answer d_question_type]; auto.
Qed.

Lemma remove_user_word_spec_witness :
  user_words_unique (db_with_user_word (u "cat") (u "кот")) /\
  let '(removed, db') := remove_user_word (db_with_user_word (u "cat") (u "кот")) 7 (u "Cat") in
  (removed = true <->
   exists ru, (lower (u "Cat"), ru) ∈ get_user_words (db_with_user_word (u "cat") (u "кот")) 7) /\
  get_user_words db' 7 =
    (if bool_decide (7 = 7)
     then filter (fun p : pystr * pystr => p.1 <> lower (u "Cat"))
            (get_user_words (db_with_user_word (u "cat") (u "кот")) 7)
     else get_user_words (db_with_user_word (u "cat") (u "кот")) 7).
Proof.
  assert (Hnd : user_words_unique (db_with_user_word (u "cat") (u "кот")))
    by (unfold user_words_unique; simpl; apply NoDup_singleton).
  split; [exact Hnd|].
  exact (remove_user_word_spec (db_with_user_word (u "cat") (u "кот")) 7 (u "Cat") 7 Hnd).
Defined.


Lemma remove_button_removes_word_witness :
  (user_words_unique (db_with_user_word (u "cat") (u "кот")) /\
   english_lower (db_with_user_word (u "cat") (u "кот")) /\
   mk_button (u "cat - кот") (u "remove_cat") ∈ remove_buttons (db_with_user_word (u "cat") (u "кот")) 7) /\
  exists en ru, (en, ru) ∈ get_user_words (db_with_user_word (u "cat") (u "кот")) 7 /\
  (forall st, route_callback st (u "remove_cat") =
     if bool_decide (en = u "word") then Some H_start_remove_word
     else match st with S_removing_word => Some H_remove_word | _ => None end) /\
  match remove_word (db_with_user_word (u "cat") (u "кот")) 7 (u "remove_cat") with
  | Some (removed, db') =>
      removed = true /\
      get_user_words db' 7 =
        filter (fun p : pystr * pystr => p.1 <> en)
          (get_user_words (db_with_user_word (u "cat") (u "кот")) 7)
  | None => False
  end.
Proof.
  assert (Hnd : user_words_unique (db_with_user_word (u "cat") (u "кот")))
    by (unfold user_words_unique; simpl; apply NoDup_singleton).
  assert (Hlow : english_lower (db_with_user_word (u "cat") (u "кот")))
    by (constructor; [reflexivity | constructor]).
  assert (Hb : mk_button (u "cat - кот") (u "remove_cat") ∈
                 remove_buttons (db_with_user_word (u "cat") (u "кот")) 7)
    by (apply list_elem_of_singleton; reflexivity).
  split; [auto|].
  exact (remove_button_removes_word (db_with_user_word (u "cat") (u "кот")) 7
           (mk_button (u "cat - кот") (u "remove_cat")) Hnd Hlow Hb).
Defined.


Lemma process_add_word_parses_witness :
  (45 ∉ u "apple ") /\
  process_add_word db_empty 7 (Some (u "apple " ++ u "-" ++ u " яблоко")) =
  let '(ok, db') := add_user_word db_empty 7 (strip (u "apple ")) (strip (u " яблоко")) in
  (if ok then WordAdded (strip (u "apple ")) (strip (u " яблоко"))
   else WordExists (strip (u "apple ")), db').
Proof.
  assert (H : 45 ∉ u "apple ") by (vm_compute; set_solver).
  split; [exact H|].
  exact (process_add_word_parses db_empty 7 (u "apple ") (u " яблоко") H).
Defined.

Lemma last_test_results_after_start_witness :
  (db_wf db_with_session /\ test_in_progress empty_data = false) /\
  let '(_, _, db') := start_learning_test [] db_with_session 7 empty_data 0 en_to_ru in
  get_user_last_test_results db' 7 = [].
Proof.
  assert (Hwf : db_wf db_with_session).
  { split; [simpl; lia|]. repeat split; (constructor; [simpl; lia || (simpl; left) | constructor]). }
  split; [split; [exact Hwf | reflexivity]|].
  exact (last_test_results_after_start [] db_with_session 7 empty_data 0 en_to_ru Hwf eq_refl).
Defined.

Lemma translate_input_loaded_never_unrecognised_witness :
  Forall (fun e : xml_entry => strip e.1 <> [] /\ strip e.2 <> []) [(u "cat", u "кот")] /\
  translate_input (load_dictionary [(u "cat", u "кот")]) (u "dog") <> InDictionaryUnrecognised.
Proof.
  assert (H : Forall (fun e : xml_entry => strip e.1 <> [] /\ strip e.2 <> [])
                [(u "cat", u "кот")])
    by (constructor; [split; intros He; vm_compute in He; discriminate He | constructor]).
  split; [exact H|].
  exact (translate_input_loaded_never_unrecognised [(u "cat", u "кот")] (u "dog") H).
Defined.
